(** * GrozyChatBot: telemetry (AgentMetrics) and admission control
      (check_rate_limit)

    A shallow embedding of [grozy_observability.py] (class [AgentMetrics])
    and of the rate limiter of [security_config.py], with the properties
    stated about them.

    Conventions.
    - A Python [str] is the list of its code points ([pystr]).
    - A Python [int] is a [Z]; a Python [float] is a binary64 value, the
      primitive type [float].
    - Readings of the environment ([datetime.now()], [psutil]) are explicit
      arguments of the operation that performs them.
    - A Python list is a [list]; a [dict] is a [gmap]; a [set] is a [gset]. *)

From Stdlib Require Import ZArith List Lia PrimFloat FloatOps SpecFloat.
From Stdlib Require Import FloatAxioms Sorting.Sorted.
From Stdlib Require Import DecimalString.
From stdpp Require Import gmap list sorting strings.

Local Open Scope Z_scope.

(** ** Python builtins used by the two modules *)

Module Py.

(** [str]: a sequence of Unicode code points. *)
Definition pystr : Type := list N.

(** A literal written with ASCII characters only. *)
Fixpoint lit (s : String.string) : pystr :=
  match s with
  | String.EmptyString => []
  | String.String c s' => Ascii.N_of_ascii c :: lit s'
  end.
Arguments lit s%_string.

(** [s[:k]] for [k >= 0]. *)
Definition slice_to {A} (k : nat) (l : list A) : list A := take k l.

(** [l[-k:]] for [k > 0]: the last [k] elements, the whole list when it
    is shorter. *)
Definition slice_last {A} (k : nat) (l : list A) : list A :=
  drop (length l - k)%nat l.

(** [len(l)]. *)
Definition len {A} (l : list A) : Z := Z.of_nat (length l).

(** *** Floats *)

(** [float(n)] for an [int]: the nearest binary64 value. *)
Definition float_of_int (n : Z) : float :=
  SF2Prim (binary_normalize prec emax n 0 false).

Definition SF_of_int (n : Z) : spec_float :=
  match n with
  | Z0 => S754_zero false
  | Zpos p => S754_finite false p 0
  | Zneg p => S754_finite true p 0
  end.

(** [a / b] on two [int]s with [b <> 0]: the correctly rounded quotient. *)
Definition truediv (a b : Z) : float :=
  SF2Prim (SFdiv prec emax (SF_of_int a) (SF_of_int b)).

(** [int(x)]: truncation toward zero.  Python raises on an infinity or a
    NaN; [0] stands for that case here, which the callers never reach. *)
Definition int_of_float (x : float) : Z :=
  match Prim2SF x with
  | S754_finite s m e =>
      let v := if 0 <=? e then Z.pos m * 2 ^ e else Z.pos m / 2 ^ (- e) in
      if s then - v else v
  | _ => 0
  end.

(** Nearest integer to [num / den] ([den > 0]), ties to even. *)
Definition round_half_even (num den : Z) : Z :=
  let q := num / den in
  let r := num mod den in
  match 2 * r ?= den with
  | Lt => q
  | Gt => q + 1
  | Eq => if Z.even q then q else q + 1
  end.

(** [round(x, ndigits)] on a float, [ndigits >= 0]: the exact value of
    [x] is rounded half-even to [ndigits] decimals and the nearest float
    to that decimal is returned; zeros, infinities and NaN round to
    themselves. *)
Definition round (x : float) (ndigits : Z) : float :=
  match Prim2SF x with
  | S754_finite s m e =>
      if 0 <=? e then x
      else
        let r := round_half_even (Z.pos m * 10 ^ ndigits) (2 ^ (- e)) in
        match r with
        | Zpos p =>
            SF2Prim (SFdiv prec emax (S754_finite s p 0)
                           (SF_of_int (10 ^ ndigits)))
        | _ => if s then neg_zero else zero
        end
  | _ => x
  end.

(** *** [sorted]

    The builtin sort is stable and compares with [<] only.  A stable
    insertion sort has the same result on every input whose elements are
    totally ordered by [<]. *)
Section Sorted.
Context {A : Type} (lt : A -> A -> bool).

Fixpoint insert_sorted (x : A) (l : list A) : list A :=
  match l with
  | [] => [x]
  | y :: l' => if lt y x then y :: insert_sorted x l' else x :: y :: l'
  end.

Fixpoint sorted (l : list A) : list A :=
  match l with
  | [] => []
  | x :: l' => insert_sorted x (sorted l')
  end.
End Sorted.

(** *** Strings *)

(** [str.isspace] on one code point. *)
Definition is_space (c : N) : bool :=
  ((9 <=? c) && (c <=? 13) || (28 <=? c) && (c <=? 32)
   || (c =? 133) || (c =? 160) || (c =? 5760)
   || (8192 <=? c) && (c <=? 8202)
   || (c =? 8232) || (c =? 8233) || (c =? 8239) || (c =? 8287)
   || (c =? 12288))%N.

(** [s.split()]: the maximal runs of non-whitespace code points.  [cur]
    is the run being read, reversed. *)
Fixpoint split_ws_aux (cur : pystr) (s : pystr) : list pystr :=
  match s with
  | [] => match cur with [] => [] | _ => [rev cur] end
  | c :: s' =>
      if is_space c then
        match cur with
        | [] => split_ws_aux [] s'
        | _ => rev cur :: split_ws_aux [] s'
        end
      else split_ws_aux (c :: cur) s'
  end.

Definition split_ws (s : pystr) : list pystr := split_ws_aux [] s.

(** [s.split(sep)] for a one-character separator: empty fields are kept. *)
Fixpoint split_on_aux (sep : N) (cur : pystr) (s : pystr) : list pystr :=
  match s with
  | [] => [rev cur]
  | c :: s' =>
      if (c =? sep)%N then rev cur :: split_on_aux sep [] s'
      else split_on_aux sep (c :: cur) s'
  end.

Definition split_on (sep : N) (s : pystr) : list pystr :=
  split_on_aux sep [] s.

(** [sep.join(parts)]. *)
Fixpoint join (sep : pystr) (parts : list pystr) : pystr :=
  match parts with
  | [] => []
  | [p] => p
  | p :: ps => p ++ sep ++ join sep ps
  end.

(** [str(n)] for an [int]. *)
Definition str_of_int (n : Z) : pystr :=
  lit (NilZero.string_of_int (Z.to_int n)).

(** [str(x)] for an optional string: [None] prints as its name. *)
Definition str_of_opt (x : option pystr) : pystr :=
  match x with
  | Some s => s
  | None => lit "None"
  end.

(** Builtins whose result is fixed outside the repository: [str.lower]
    follows the Unicode case tables of the interpreter, and [sum] over
    floats adds left to right in some interpreter versions and with a
    compensated algorithm in others.  They are taken as parameters; the
    instance [ascii_builtins] serves to evaluate the model. *)
Class Builtins := {
  lower : pystr -> pystr;
  fsum : list float -> float
}.

Definition ascii_lower_char (c : N) : N :=
  if ((65 <=? c) && (c <=? 90))%N then (c + 32)%N else c.

Definition ascii_builtins : Builtins := {|
  lower := map ascii_lower_char;
  fsum := fun l => fold_left PrimFloat.add l zero
|}.

End Py.

(** ** grozy_observability.py: class AgentMetrics *)

Module Observability.
Import Py.

(** The dictionaries appended to the histories. *)
Record error_entry := {
  err_timestamp : pystr;
  err_error : pystr;
  err_tools_used : list pystr;
  err_request : pystr
}.

Record latency_entry := {
  lat_timestamp : pystr;
  lat_latency : float;
  lat_success : bool
}.

Record precision_entry := {
  pr_timestamp : pystr;
  pr_precision : float;
  pr_expected : list pystr;
  pr_actual : list pystr
}.

Record resource_entry := {
  res_timestamp : pystr;
  res_cpu_percent : float;
  res_memory_percent : float;
  res_memory_used_mb : float
}.

Record trace_entry := {
  tr_timestamp : pystr;
  tr_request : pystr;
  tr_response : pystr;
  tr_tools_used : list pystr;
  tr_latency : float;
  tr_success : bool
}.

Record consistency_entry := {
  cc_timestamp : pystr;
  cc_query : pystr;
  cc_response : pystr;
  cc_similar_previous : Z
}.

(** [self.metrics]. *)
Record metrics := {
  total_requests : Z;
  successful_requests : Z;
  failed_requests : Z;
  total_latency : float;
  tool_calls : gmap pystr Z;
  errors : list error_entry;
  latency_history : list latency_entry;
  precision_scores : list precision_entry;
  resource_usage : list resource_entry;
  execution_traces : list trace_entry;
  consistency_checks : list consistency_entry
}.

(** [AgentMetrics.__init__]. *)
Definition init : metrics := {|
  total_requests := 0;
  successful_requests := 0;
  failed_requests := 0;
  total_latency := zero;
  tool_calls := ∅;
  errors := [];
  latency_history := [];
  precision_scores := [];
  resource_usage := [];
  execution_traces := [];
  consistency_checks := []
|}.

(** One reading of [psutil] with the time at which the entry is stamped:
    [cpu_percent(interval=0.1)], [virtual_memory().percent] and
    [virtual_memory().used] (bytes). *)
Record psutil_reading := {
  ps_now : pystr;
  ps_cpu_percent : float;
  ps_memory_percent : float;
  ps_memory_used : Z
}.

(** Field updates of [self.metrics]. *)
Definition set_counters (t s f : Z) (m : metrics) : metrics :=
  {| total_requests := t; successful_requests := s; failed_requests := f;
     total_latency := total_latency m; tool_calls := tool_calls m;
     errors := errors m; latency_history := latency_history m;
     precision_scores := precision_scores m;
     resource_usage := resource_usage m;
     execution_traces := execution_traces m;
     consistency_checks := consistency_checks m |}.

Definition set_total_latency (v : float) (m : metrics) : metrics :=
  {| total_requests := total_requests m;
     successful_requests := successful_requests m;
     failed_requests := failed_requests m;
     total_latency := v; tool_calls := tool_calls m;
     errors := errors m; latency_history := latency_history m;
     precision_scores := precision_scores m;
     resource_usage := resource_usage m;
     execution_traces := execution_traces m;
     consistency_checks := consistency_checks m |}.

Definition set_tool_calls (v : gmap pystr Z) (m : metrics) : metrics :=
  {| total_requests := total_requests m;
     successful_requests := successful_requests m;
     failed_requests := failed_requests m;
     total_latency := total_latency m; tool_calls := v;
     errors := errors m; latency_history := latency_history m;
     precision_scores := precision_scores m;
     resource_usage := resource_usage m;
     execution_traces := execution_traces m;
     consistency_checks := consistency_checks m |}.

Definition set_errors (v : list error_entry) (m : metrics) : metrics :=
  {| total_requests := total_requests m;
     successful_requests := successful_requests m;
     failed_requests := failed_requests m;
     total_latency := total_latency m; tool_calls := tool_calls m;
     errors := v; latency_history := latency_history m;
     precision_scores := precision_scores m;
     resource_usage := resource_usage m;
     execution_traces := execution_traces m;
     consistency_checks := consistency_checks m |}.

Definition set_latency_history (v : list latency_entry) (m : metrics)
  : metrics :=
  {| total_requests := total_requests m;
     successful_requests := successful_requests m;
     failed_requests := failed_requests m;
     total_latency := total_latency m; tool_calls := tool_calls m;
     errors := errors m; latency_history := v;
     precision_scores := precision_scores m;
     resource_usage := resource_usage m;
     execution_traces := execution_traces m;
     consistency_checks := consistency_checks m |}.

Definition set_precision_scores (v : list precision_entry) (m : metrics)
  : metrics :=
  {| total_requests := total_requests m;
     successful_requests := successful_requests m;
     failed_requests := failed_requests m;
     total_latency := total_latency m; tool_calls := tool_calls m;
     errors := errors m; latency_history := latency_history m;
     precision_scores := v;
     resource_usage := resource_usage m;
     execution_traces := execution_traces m;
     consistency_checks := consistency_checks m |}.

Definition set_resource_usage (v : list resource_entry) (m : metrics)
  : metrics :=
  {| total_requests := total_requests m;
     successful_requests := successful_requests m;
     failed_requests := failed_requests m;
     total_latency := total_latency m; tool_calls := tool_calls m;
     errors := errors m; latency_history := latency_history m;
     precision_scores := precision_scores m;
     resource_usage := v;
     execution_traces := execution_traces m;
     consistency_checks := consistency_checks m |}.

Definition set_execution_traces (v : list trace_entry) (m : metrics)
  : metrics :=
  {| total_requests := total_requests m;
     successful_requests := successful_requests m;
     failed_requests := failed_requests m;
     total_latency := total_latency m; tool_calls := tool_calls m;
     errors := errors m; latency_history := latency_history m;
     precision_scores := precision_scores m;
     resource_usage := resource_usage m;
     execution_traces := v;
     consistency_checks := consistency_checks m |}.

Definition set_consistency_checks (v : list consistency_entry) (m : metrics)
  : metrics :=
  {| total_requests := total_requests m;
     successful_requests := successful_requests m;
     failed_requests := failed_requests m;
     total_latency := total_latency m; tool_calls := tool_calls m;
     errors := errors m; latency_history := latency_history m;
     precision_scores := precision_scores m;
     resource_usage := resource_usage m;
     execution_traces := execution_traces m;
     consistency_checks := v |}.

(** [if len(l) > cap: l = l[-cap:]]. *)
Definition trim {A} (cap : nat) (l : list A) : list A :=
  if Z.of_nat cap <? len l then slice_last cap l else l.

(** *** record_request, statement by statement *)

(** [self.metrics['total_requests'] += 1]. *)
Definition rr_count (m : metrics) : metrics :=
  set_counters (total_requests m + 1) (successful_requests m)
               (failed_requests m) m.

(** [self.metrics['successful_requests'] += 1]. *)
Definition rr_successful (m : metrics) : metrics :=
  set_counters (total_requests m) (successful_requests m + 1)
               (failed_requests m) m.

(** [self.metrics['failed_requests'] += 1]. *)
Definition rr_failed (m : metrics) : metrics :=
  set_counters (total_requests m) (successful_requests m)
               (failed_requests m + 1) m.

(** [self.metrics['errors'].append(error_entry)]. *)
Definition rr_append_error (timestamp : pystr) (tools_used : list pystr)
    (error : option pystr) (request_text : pystr) (m : metrics) : metrics :=
  set_errors
    (errors m ++ [{| err_timestamp := timestamp;
                     err_error := str_of_opt error;
                     err_tools_used := tools_used;
                     err_request := slice_to 200 request_text |}]) m.

(** [self.metrics['total_latency'] += latency]. *)
Definition rr_total_latency (latency : float) (m : metrics) : metrics :=
  set_total_latency (PrimFloat.add (total_latency m) latency) m.

(** [self.metrics['latency_history'].append({...})]. *)
Definition rr_append_latency (timestamp : pystr) (latency : float)
    (success : bool) (m : metrics) : metrics :=
  set_latency_history
    (latency_history m ++ [{| lat_timestamp := timestamp;
                              lat_latency := latency;
                              lat_success := success |}]) m.

(** The trim of [latency_history] to its last 100 entries. *)
Definition rr_trim_latency (m : metrics) : metrics :=
  set_latency_history (trim 100 (latency_history m)) m.

(** [self.metrics['tool_calls'][tool] += 1] on a [defaultdict(int)]. *)
Definition bump (tc : gmap pystr Z) (tool : pystr) : gmap pystr Z :=
  <[tool := default 0 (tc !! tool) + 1]> tc.

(** [for tool in tools_used: ...]. *)
Definition rr_tools (tools_used : list pystr) (m : metrics) : metrics :=
  set_tool_calls (fold_left bump tools_used (tool_calls m)) m.

(** [_record_resource_usage]: [None] is a reading that raised; the handler
    logs a warning and nothing is appended. *)
Definition record_resource_usage (reading : option psutil_reading)
    (m : metrics) : metrics :=
  match reading with
  | None => m
  | Some r =>
      set_resource_usage
        (trim 50
           (resource_usage m ++
              [{| res_timestamp := ps_now r;
                  res_cpu_percent := ps_cpu_percent r;
                  res_memory_percent := ps_memory_percent r;
                  res_memory_used_mb :=
                    truediv (ps_memory_used r) (1024 * 1024) |}])) m
  end.

(** The statements of the body of [record_request], in order.  [timestamp]
    is [datetime.now().isoformat()] read at the top of the body. *)
Definition record_request_body (timestamp : pystr)
    (reading : option psutil_reading) (success : bool) (latency : float)
    (tools_used : list pystr) (error : option pystr) (request_text : pystr)
  : list (metrics -> metrics) :=
  [rr_count]
  ++ (if success then [rr_successful]
      else [rr_failed;
            rr_append_error timestamp tools_used error request_text])
  ++ [rr_total_latency latency;
      rr_append_latency timestamp latency success;
      rr_trim_latency;
      rr_tools tools_used;
      record_resource_usage reading].

(** Running a list of statements. *)
Definition exec (body : list (metrics -> metrics)) (m : metrics) : metrics :=
  fold_left (fun m f => f m) body m.

Definition record_request (timestamp : pystr)
    (reading : option psutil_reading) (success : bool) (latency : float)
    (tools_used : list pystr) (error : option pystr) (request_text : pystr)
    (m : metrics) : metrics :=
  exec (record_request_body timestamp reading success latency tools_used
          error request_text) m.

(** *** record_trace *)

Definition rt_append (now : pystr) (request response : pystr)
    (tools_used : list pystr) (latency : float) (success : bool)
    (m : metrics) : metrics :=
  set_execution_traces
    (execution_traces m ++ [{| tr_timestamp := now;
                               tr_request := slice_to 300 request;
                               tr_response := slice_to 500 response;
                               tr_tools_used := tools_used;
                               tr_latency := latency;
                               tr_success := success |}]) m.

Definition rt_trim (m : metrics) : metrics :=
  set_execution_traces (trim 50 (execution_traces m)) m.

Definition record_trace_body (now : pystr) (request response : pystr)
    (tools_used : list pystr) (latency : float) (success : bool)
  : list (metrics -> metrics) :=
  [rt_append now request response tools_used latency success; rt_trim].

Definition record_trace (now : pystr) (request response : pystr)
    (tools_used : list pystr) (latency : float) (success : bool)
    (m : metrics) : metrics :=
  exec (record_trace_body now request response tools_used latency success) m.

(** *** calculate_precision *)

(** The score computed before the lock is taken; the [else 0] of the
    source is the float zero here. *)
Definition precision_of (expected_tools actual_tools : list pystr) : float :=
  let correct :=
    Z.of_nat (size (list_to_set expected_tools ∩ list_to_set actual_tools
                    : gset pystr)) in
  let total :=
    Z.of_nat (size (list_to_set expected_tools ∪ list_to_set actual_tools
                    : gset pystr)) in
  if 0 <? total then truediv correct total else zero.

Definition cp_append (now : pystr) (precision : float)
    (expected_tools actual_tools : list pystr) (m : metrics) : metrics :=
  set_precision_scores
    (precision_scores m ++ [{| pr_timestamp := now;
                               pr_precision := precision;
                               pr_expected := expected_tools;
                               pr_actual := actual_tools |}]) m.

Definition cp_trim (m : metrics) : metrics :=
  set_precision_scores (trim 50 (precision_scores m)) m.

(** The statements run under the lock; none when [expected_tools] is
    empty, where the method returns before taking it. *)
Definition calculate_precision_body (now : pystr)
    (expected_tools actual_tools : list pystr) : list (metrics -> metrics) :=
  match expected_tools with
  | [] => []
  | _ => [cp_append now (precision_of expected_tools actual_tools)
            expected_tools actual_tools; cp_trim]
  end.

(** The returned score and the state left behind. *)
Definition calculate_precision (now : pystr)
    (expected_tools actual_tools : list pystr) (m : metrics)
  : float * metrics :=
  match expected_tools with
  | [] => (one, m)
  | _ => (precision_of expected_tools actual_tools,
          exec (calculate_precision_body now expected_tools actual_tools) m)
  end.

(** *** check_consistency *)

(** [_similarity]. *)
Definition similarity (str1 str2 : pystr) : float :=
  let words1 : gset pystr := list_to_set (split_ws str1) in
  let words2 : gset pystr := list_to_set (split_ws str2) in
  if bool_decide (words1 = ∅) || bool_decide (words2 = ∅) then zero
  else
    let intersection := Z.of_nat (size (words1 ∩ words2)) in
    let union := Z.of_nat (size (words1 ∪ words2)) in
    if 0 <? union then truediv intersection union else zero.

(** The threshold [0.7] as the float the literal denotes. *)
Definition threshold : float := 0x1.6666666666666p-1.

(** The loop counting the stored queries similar to [query]. *)
Definition similar_count {builtins : Builtins} (query : pystr)
    (checks : list consistency_entry) : Z :=
  fold_left
    (fun count check =>
       if PrimFloat.ltb threshold
            (similarity (lower query) (lower (cc_query check)))
       then count + 1 else count)
    checks 0.

Definition cc_append {builtins : Builtins} (now : pystr) (query response : pystr)
    (m : metrics) : metrics :=
  set_consistency_checks
    (consistency_checks m ++
       [{| cc_timestamp := now;
           cc_query := slice_to 200 query;
           cc_response := slice_to 200 response;
           cc_similar_previous :=
             similar_count query (consistency_checks m) |}]) m.

Definition cc_trim (m : metrics) : metrics :=
  set_consistency_checks (trim 30 (consistency_checks m)) m.

Definition check_consistency_body {builtins : Builtins} (now : pystr)
    (query response : pystr) : list (metrics -> metrics) :=
  [cc_append now query response; cc_trim].

Definition check_consistency {builtins : Builtins} (now : pystr)
    (query response : pystr) (m : metrics) : metrics :=
  exec (check_consistency_body now query response) m.

(** *** get_summary *)

(** The dictionary returned by [get_summary]. *)
Module Summary.
Record t := {
  total_requests : Z;
  successful_requests : Z;
  failed_requests : Z;
  success_rate : float;
  error_rate : float;
  avg_latency : float;
  p95_latency : float;
  p99_latency : float;
  latency_history : list latency_entry;
  avg_precision : float;
  precision_history : list precision_entry;
  tool_usage : gmap pystr Z;
  total_tool_calls : Z;
  recent_errors : list error_entry;
  error_count : Z;
  avg_cpu_percent : float;
  avg_memory_percent : float;
  resource_usage : list resource_entry;
  execution_traces : list trace_entry;
  consistency_checks : Z;
  generated_at : pystr
}.
End Summary.

(** The values computed before the dictionary is built.  An [int] zero of
    the source (no request, no sample) is the float zero here. *)
Record summary_locals := {
  loc_avg_latency : float;
  loc_success_rate : float;
  loc_error_rate : float;
  loc_avg_precision : float;
  loc_p95_latency : float;
  loc_p99_latency : float;
  loc_avg_cpu : float;
  loc_avg_memory : float
}.

(** The literals [0.95] and [0.99] as the floats they denote. *)
Definition q95 : float := 0x1.e666666666666p-1.
Definition q99 : float := 0x1.fae147ae147aep-1.

(** [int(len(sorted_latencies) * q)]. *)
Definition percentile_idx (q : float) (sorted_latencies : list float) : Z :=
  int_of_float (PrimFloat.mul (float_of_int (len sorted_latencies)) q).

(** [sorted_latencies[idx] if idx < len(sorted_latencies)
     else sorted_latencies[-1]], for [idx >= 0]. *)
Definition percentile_at (idx : Z) (sorted_latencies : list float) : float :=
  if idx <? len sorted_latencies
  then default zero (sorted_latencies !! Z.to_nat idx)
  else default zero (last sorted_latencies).

(** The percentile before rounding; [0] on an empty history. *)
Definition percentile (q : float) (latencies : list float) : float :=
  match latencies with
  | [] => zero
  | _ =>
      let sorted_latencies := sorted PrimFloat.ltb latencies in
      percentile_at (percentile_idx q sorted_latencies) sorted_latencies
  end.

Definition compute_locals {builtins : Builtins} (m : metrics) : summary_locals :=
  let total := total_requests m in
  let hundred := float_of_int 100 in
  let latencies := map lat_latency (latency_history m) in
  let n_res := len (resource_usage m) in
  {| loc_avg_latency :=
       if 0 <? total
       then PrimFloat.div (total_latency m) (float_of_int total) else zero;
     loc_success_rate :=
       if 0 <? total
       then PrimFloat.mul (truediv (successful_requests m) total) hundred
       else zero;
     loc_error_rate :=
       if 0 <? total
       then PrimFloat.mul (truediv (failed_requests m) total) hundred
       else zero;
     loc_avg_precision :=
       match precision_scores m with
       | [] => zero
       | _ => PrimFloat.div (fsum (map pr_precision (precision_scores m)))
                (float_of_int (len (precision_scores m)))
       end;
     loc_p95_latency := percentile q95 latencies;
     loc_p99_latency := percentile q99 latencies;
     loc_avg_cpu :=
       match resource_usage m with
       | [] => zero
       | _ => PrimFloat.div (fsum (map res_cpu_percent (resource_usage m)))
                (float_of_int n_res)
       end;
     loc_avg_memory :=
       match resource_usage m with
       | [] => zero
       | _ => PrimFloat.div
                (fsum (map res_memory_percent (resource_usage m)))
                (float_of_int n_res)
       end |}.

(** The [return {...}] statement. *)
Definition build_summary (now : pystr) (l : summary_locals) (m : metrics)
  : Summary.t := {|
  Summary.total_requests := total_requests m;
  Summary.successful_requests := successful_requests m;
  Summary.failed_requests := failed_requests m;
  Summary.success_rate := round (loc_success_rate l) 2;
  Summary.error_rate := round (loc_error_rate l) 2;
  Summary.avg_latency := round (loc_avg_latency l) 3;
  Summary.p95_latency := round (loc_p95_latency l) 3;
  Summary.p99_latency := round (loc_p99_latency l) 3;
  Summary.latency_history := slice_last 30 (latency_history m);
  Summary.avg_precision := round (loc_avg_precision l) 3;
  Summary.precision_history := slice_last 20 (precision_scores m);
  Summary.tool_usage := tool_calls m;
  Summary.total_tool_calls := map_fold (fun _ v acc => acc + v) 0 (tool_calls m);
  Summary.recent_errors := slice_last 10 (errors m);
  Summary.error_count := len (errors m);
  Summary.avg_cpu_percent := round (loc_avg_cpu l) 2;
  Summary.avg_memory_percent := round (loc_avg_memory l) 2;
  Summary.resource_usage := slice_last 20 (resource_usage m);
  Summary.execution_traces := slice_last 10 (execution_traces m);
  Summary.consistency_checks := len (consistency_checks m);
  Summary.generated_at := now
|}.

Definition get_summary {builtins : Builtins} (now : pystr) (m : metrics) : Summary.t :=
  build_summary now (compute_locals m) m.

(** *** Sequences of calls *)

(** A call of one of the four mutating methods, with its arguments and the
    readings of the environment it makes. *)
Inductive call :=
| RecordRequest (timestamp : pystr) (reading : option psutil_reading)
    (success : bool) (latency : float) (tools_used : list pystr)
    (error : option pystr) (request_text : pystr)
| RecordTrace (now : pystr) (request response : pystr)
    (tools_used : list pystr) (latency : float) (success : bool)
| CalculatePrecision (now : pystr) (expected_tools actual_tools : list pystr)
| CheckConsistency (now : pystr) (query response : pystr).


(** The state after one call. *)
Definition step {builtins : Builtins} (m : metrics) (c : call) : metrics :=
  match c with
  | RecordRequest ts rd ok lat tools err req =>
      record_request ts rd ok lat tools err req m
  | RecordTrace now req resp tools lat ok =>
      record_trace now req resp tools lat ok m
  | CalculatePrecision now exp act => snd (calculate_precision now exp act m)
  | CheckConsistency now q r => check_consistency now q r m
  end.

(** The state after a sequence of calls on a fresh [AgentMetrics]. *)
Definition run {builtins : Builtins} (calls : list call) : metrics :=
  fold_left step calls init.

End Observability.


(** ** security_config.py: the rate limiter *)

Module Security.
Import Py.

(** An entry of [security_log]. *)
Record security_event := {
  ev_timestamp : pystr;
  ev_type : pystr;
  ev_details : pystr;
  ev_ip : pystr
}.

(** The fields of [SecurityManager] that the rate limiter reads or writes.
    A [datetime] is its number of microseconds since the epoch. *)
Record SecurityManager := {
  rate_limit_storage : gmap pystr (list Z);
  security_log : list security_event
}.

(** [SecurityManager.__init__]. *)
Definition new_manager : SecurityManager :=
  {| rate_limit_storage := ∅; security_log := [] |}.

(** [_anonymize_ip]. *)
Definition anonymize_ip (ip : pystr) : pystr :=
  if bool_decide (58%N ∈ ip) then
    join (lit ":") (slice_to 4 (split_on 58 ip)) ++ lit ":****"
  else
    join (lit ".") (slice_to 2 (split_on 46 ip)) ++ lit ".***".

(** [log_security_event]; [now] is [datetime.now().isoformat()]. *)
Definition log_security_event (now : pystr) (event_type details : pystr)
    (ip_address : pystr) (sm : SecurityManager) : SecurityManager :=
  let log := security_log sm ++
               [{| ev_timestamp := now; ev_type := event_type;
                   ev_details := details;
                   ev_ip := anonymize_ip ip_address |}] in
  {| rate_limit_storage := rate_limit_storage sm;
     security_log := if 1000 <? len log then slice_last 1000 log else log |}.

(** [timedelta(seconds=n)] in microseconds. *)
Definition timedelta_seconds (n : Z) : Z := n * 1000000.

(** The text of the audit event,
    [f'IP excedió {max_requests} peticiones en {window_seconds}s']. *)
Definition exceeded_details (max_requests window_seconds : Z) : pystr :=
  lit "IP excedi" ++ [243%N] ++ lit " " ++ str_of_int max_requests
  ++ lit " peticiones en " ++ str_of_int window_seconds ++ lit "s".

(** [check_rate_limit].  [now] is the [datetime.now()] of the first line and
    [log_now] the one read by [log_security_event] on a rejection.  The
    result is the pair [(allowed, remaining_requests)] and the manager as
    the call leaves it.

    [recent_requests] and [rate_limit_storage[ip_address]] are one list
    object once the former is stored: the [append(now)] made through the
    dictionary is visible in [recent_requests], so the
    [len(recent_requests)] read afterwards counts the new timestamp
    ([appended] below). *)
Definition check_rate_limit (now : Z) (log_now : pystr)
    (security_manager : SecurityManager) (ip_address : pystr)
    (max_requests window_seconds : Z)
  : (bool * Z) * SecurityManager :=
  let cutoff := now - timedelta_seconds window_seconds in
  let stored := default [] (rate_limit_storage security_manager !! ip_address) in
  let recent_requests := filter (fun ts => cutoff < ts) stored in
  let sm1 :=
    {| rate_limit_storage :=
         <[ip_address := recent_requests]>
           (rate_limit_storage security_manager);
       security_log := security_log security_manager |} in
  if max_requests <=? len recent_requests then
    ((false, 0),
     log_security_event log_now (lit "rate_limit_exceeded")
       (exceeded_details max_requests window_seconds) ip_address sm1)
  else
    let appended := recent_requests ++ [now] in
    ((true, max_requests - len appended - 1),
     {| rate_limit_storage :=
          <[ip_address := appended]> (rate_limit_storage sm1);
        security_log := security_log sm1 |}).

(** The call with the defaults [max_requests=20, window_seconds=60], as
    [apply_rate_limit] makes it. *)
Definition check_default (sm : SecurityManager) (ip : pystr) (now : Z)
    (log_now : pystr) : (bool * Z) * SecurityManager :=
  check_rate_limit now log_now sm ip 20 60.

(** One request to the limiter: the client, the clock, and the clock read
    on a rejection. *)
Record request := {
  rq_ip : pystr;
  rq_now : Z;
  rq_log_now : pystr
}.

(** A sequence of requests: the results in order and the final manager. *)
Fixpoint serve (sm : SecurityManager) (reqs : list request)
  : list (bool * Z) * SecurityManager :=
  match reqs with
  | [] => ([], sm)
  | r :: reqs' =>
      let '(res, sm') := check_default sm (rq_ip r) (rq_now r) (rq_log_now r) in
      let '(ress, sm'') := serve sm' reqs' in
      (res :: ress, sm'')
  end.

(** The timestamps stored for a client ([[]] when it has no entry). *)
Definition stored_for (sm : SecurityManager) (ip : pystr) : list Z :=
  default [] (rate_limit_storage sm !! ip).

End Security.


(** ** Threads calling one AgentMetrics

    Every public method runs its body inside [with self.lock:].  A thread
    is a sequence of method invocations; the threads interleave at the
    granularity of the statements listed by [body_of], and [get_summary]
    reads the shared dictionary in two steps (the averages and percentiles
    first, the returned dictionary next).  On arguments of the annotated
    types no statement of a body raises, so a body that has started runs
    to the release of the lock. *)

Module Concurrent.
Import Py Observability.

(** A method call made by a thread. *)
Inductive invocation :=
| Mutate (c : call)
| GetSummary (now : pystr).












(** *** Linearizations *)

(** The calls of the mutating methods among the invocations of a thread,
    in the thread's order. *)
Definition mutations (w : list invocation) : list call :=
  flat_map (fun inv => match inv with
                       | Mutate c => [c]
                       | GetSummary _ => []
                       end) w.

(** An order of whole calls, each with the number of the thread that made
    it: all the calls, and those of thread [i]. *)
Definition calls_of (order : list (nat * call)) : list call :=
  map snd order.

Definition calls_by (i : nat) (order : list (nat * call)) : list call :=
  map snd (filter (fun p => fst p = i) order).

(** [order] is made of calls of the threads of [work]: from each thread it
    takes an initial part of the thread's calls, in the thread's order, and
    from a thread that [work] does not have it takes none. *)
Definition linearization (work : list (list invocation))
    (order : list (nat * call)) : Prop :=
  forall i, calls_by i order `prefix_of` mutations (default [] (work !! i)).

(** A returned dictionary is the summary of the state that calls of the
    threads produce when they are made whole, one after the other. *)
Definition whole_state_summary {builtins : Builtins}
    (work : list (list invocation)) (s : Summary.t) : Prop :=
  exists order now,
    linearization work order /\ s = get_summary now (run (calls_of order)).

(** *** The invariant of the interleavings *)




End Concurrent.

(** ** Predicates used to state the properties *)

Module Spec.
Import Py Observability Concurrent.

(** The capacities of the five bounded histories. *)
Definition within_capacity (m : metrics) : Prop :=
  (length (latency_history m) <= 100)%nat
  /\ (length (precision_scores m) <= 50)%nat
  /\ (length (resource_usage m) <= 50)%nat
  /\ (length (execution_traces m) <= 50)%nat
  /\ (length (consistency_checks m) <= 30)%nat.

(** [new] is what is left of [old] after the entries [appended] were put
    at its end and the result cut down to its last [cap] entries: what is
    dropped is the oldest entries, a prefix of [old ++ appended], and
    nothing is dropped unless [old ++ appended] is longer than [cap]. *)
Definition keeps_tail {A} (cap : nat) (old appended new : list A) : Prop :=
  new `suffix_of` (old ++ appended)
  /\ length new = Nat.min cap (length (old ++ appended)).

(** The calls of [record_request], and those that report a failure. *)
Definition is_record_request (c : call) : bool :=
  match c with
  | RecordRequest _ _ _ _ _ _ _ => true
  | _ => false
  end.

Definition is_failed_request (c : call) : bool :=
  match c with
  | RecordRequest _ _ success _ _ _ _ => negb success
  | _ => false
  end.

Definition requests_in (calls : list call) : Z :=
  len (List.filter is_record_request calls).

Definition failures_in (calls : list call) : Z :=
  len (List.filter is_failed_request calls).

(** The sample [1.0, 2.0, ..., 100.0] recorded by 100 successful requests. *)
Definition sample_calls : list call :=
  map (fun k => RecordRequest [] None true (float_of_int (Z.of_nat k)) []
                  None [])
      (seq 1 100).

(** A request that took 2^-12 seconds. *)
Definition quick_call : call :=
  RecordRequest [] None true 0x1p-12%float [] None [].

(** A query of 150 distinct one-character words (ideographs, which have no
    case) separated by single spaces: 299 characters, of which the first
    200 hold 100 words. *)
Definition long_query : pystr :=
  join (lit " ") (map (fun k => [19968 + N.of_nat k]%N) (seq 0 150)).




(** One thread that records the 100 requests of the sample and then one
    more, and a reader; and the summary of the state in the middle of the
    101st call, after the counters and before the append. *)
Definition torn_work : list (list invocation) :=
  [map Mutate (sample_calls ++ [quick_call]); [GetSummary []]].

Definition torn_summary : Summary.t :=
  get_summary (builtins := ascii_builtins) []
    (exec [rr_count; rr_successful]
       (run (builtins := ascii_builtins) sample_calls)).

(** The requests of one client at the given clock readings. *)
Definition requests_of (ip : pystr) (clock : list Z) : list Security.request :=
  map (fun t => {| Security.rq_ip := ip; Security.rq_now := t;
                   Security.rq_log_now := [] |}) clock.

(** The timestamps that a call made at [now] keeps: those newer than
    [now] minus 60 seconds. *)
Definition recent_at (now : Z) (stored : list Z) : list Z :=
  filter (fun ts => now - Security.timedelta_seconds 60 < ts) stored.

(** All the clock readings lie in the 60 seconds that start at [t0]. *)
Definition in_one_window (t0 : Z) (clock : list Z) : Prop :=
  Forall (fun t => t0 <= t < t0 + Security.timedelta_seconds 60) clock.

(** Every stored timestamp is 60 seconds old or more at [now]. *)
Definition all_aged (now : Z) (stored : list Z) : Prop :=
  Forall (fun ts => ts + Security.timedelta_seconds 60 <= now) stored.

End Spec.

(** ** security_config.py: API keys and anonymization of records *)

Module SecurityData.
Import Py.

(** *** API keys

    [hashlib.sha256(data).hexdigest()] on the UTF-8 encoding of a string is
    a parameter.  Its result is made of hexadecimal digits, on which
    [secrets.compare_digest] is equality of strings. *)
Section ApiKeys.
Variable sha256_hex : pystr -> pystr.

(** The two key fields of [SecurityManager]. *)
Record key_store := {
  master_key : pystr;
  master_key_hash : pystr
}.

(** [key.encode()] raises [UnicodeEncodeError] on a surrogate code point
    (U+D800 to U+DFFF), which a string read from the environment can
    hold. *)
Definition is_surrogate (c : N) : bool :=
  ((55296 <=? c) && (c <=? 57343))%N.

Definition encodable (key : pystr) : bool :=
  forallb (fun c => negb (is_surrogate c)) key.

(** [_generate_api_key]; [token] is [secrets.token_urlsafe(32)]. *)
Definition generate_api_key (token : pystr) : pystr := lit "grozy_" ++ token.

(** [_hash_key]; [None] when [encode] raises. *)
Definition hash_key (key : pystr) : option pystr :=
  if encodable key then Some (sha256_hex key) else None.

(** The key lines of [SecurityManager.__init__]: [env_key] is
    [os.getenv('GROZY_API_KEY')]; [x or y] takes [y] when [x] is [None] or
    empty.  [None] when [_hash_key] raises. *)
Definition new_key_store (env_key : option pystr) (token : pystr)
  : option key_store :=
  let master :=
    match env_key with
    | Some (c :: k) => c :: k
    | _ => generate_api_key token
    end in
  match hash_key master with
  | Some h => Some {| master_key := master; master_key_hash := h |}
  | None => None
  end.

(** [validate_api_key]; [provided_key] is [None] when the header is
    missing.  [None] when [_hash_key] raises. *)
Definition validate_api_key (ks : key_store) (provided_key : option pystr)
  : option bool :=
  match provided_key with
  | Some (c :: k) =>
      match hash_key (c :: k) with
      | Some provided_hash =>
          Some (bool_decide (provided_hash = master_key_hash ks))
      | None => None
      end
  | _ => Some false
  end.

End ApiKeys.

(** *** anonymize_data *)

(** The values of the records: strings, integers and [None]. *)
Inductive pyval :=
| VStr (s : pystr)
| VInt (n : Z)
| VNone.

(** [str(value)]. *)
Definition str_of_val (v : pyval) : pystr :=
  match v with
  | VStr s => s
  | VInt n => str_of_int n
  | VNone => lit "None"
  end.

Definition sensitive_fields : list pystr :=
  [lit "user_id"; lit "email"; lit "ip_address"; lit "phone"].

(** [f"***{value[-4:]}" if len(value) > 4 else "****"]. *)
Definition mask (value : pystr) : pystr :=
  if 4 <? len value then lit "***" ++ slice_last 4 value else lit "****".

(** One turn of the loop over [sensitive_fields]. *)
Definition anonymize_field (anonymized : gmap pystr pyval) (field : pystr)
  : gmap pystr pyval :=
  match anonymized !! field with
  | Some v => <[field := VStr (mask (str_of_val v))]> anonymized
  | None => anonymized
  end.

(** [anonymize_data]: the result is a new dictionary, [data] is not
    changed. *)
Definition anonymize_data (data : gmap pystr pyval) : gmap pystr pyval :=
  fold_left anonymize_field sensitive_fields data.

End SecurityData.

(** ** invoke_agent_with_metrics (grozy_api.py and grozy_agent_v2.py) *)

Module Agent.
Import Py Observability.

(** A message of the conversation: who wrote it, its content, and the
    names of the tool calls it carries ([tc.get('name', '')] for each
    entry of [msg.tool_calls]; none when the attribute is missing or
    empty). *)
Inductive role := Human | Assistant | ToolResult.

Record message := {
  msg_role : role;
  msg_content : pystr;
  msg_tool_calls : list pystr
}.

(** [HumanMessage(content=user_message)]. *)
Definition human_message (user_message : pystr) : message :=
  {| msg_role := Human; msg_content := user_message; msg_tool_calls := [] |}.

(** What [agent_executor.invoke] does with the prepared messages: it
    returns [response['messages']] or raises an exception [e], given by
    [str(e)]. *)
Inductive agent_outcome :=
| Returned (messages : list message)
| Raised (error : pystr).

(** [if tool_name and tool_name not in tools_used:
       tools_used.append(tool_name)]. *)
Definition note_tool (tools_used : list pystr) (tool_name : pystr)
  : list pystr :=
  if bool_decide (tool_name <> []) && bool_decide (tool_name ∉ tools_used)
  then tools_used ++ [tool_name]
  else tools_used.

(** The loop over the messages and their tool calls. *)
Definition collect_tools (messages : list message) : list pystr :=
  fold_left (fun tools_used msg =>
               fold_left note_tool (msg_tool_calls msg) tools_used)
            messages [].

(** The readings of the environment during one invocation: [time.time()]
    at both ends, and what the three metric calls read. *)
Record readings := {
  rd_start_time : float;
  rd_end_time : float;
  rd_request_timestamp : pystr;
  rd_psutil : option psutil_reading;
  rd_trace_now : pystr;
  rd_check_now : pystr
}.

(** The dictionary returned. *)
Record invocation_result := {
  res_success : bool;
  res_response : pystr;
  res_latency : float;
  res_tools_used : list pystr;
  res_messages : list message
}.

(** The local variables when the [try] statement is left. *)
Record locals := {
  success : bool;
  response_content : pystr;
  error_msg : option pystr;
  tools_used : list pystr;
  messages_result : list message
}.

(** The [try] and [except] blocks.  An empty [response['messages']] makes
    [response['messages'][-1]] raise [IndexError], which the handler
    catches like an exception of the agent. *)
Definition try_agent (agent : list message -> agent_outcome)
    (user_message : pystr) (conversation_history : option (list message))
  : locals :=
  let messages :=
    match conversation_history with
    | None => [human_message user_message]
    | Some history => history ++ [human_message user_message]
    end in
  match agent messages with
  | Returned response_messages =>
      match last response_messages with
      | Some final =>
          {| success := true;
             response_content := msg_content final;
             error_msg := None;
             tools_used := collect_tools response_messages;
             messages_result := response_messages |}
      | None =>
          {| success := false;
             response_content :=
               lit "Error: " ++ lit "list index out of range";
             error_msg := Some (lit "list index out of range");
             tools_used := [];
             messages_result := response_messages |}
      end
  | Raised error =>
      {| success := false;
         response_content := lit "Error: " ++ error;
         error_msg := Some error;
         tools_used := [];
         messages_result := [] |}
  end.

(** The calls made on [metrics_system] by the [finally] block. *)
Definition metric_calls (rd : readings) (user_message : pystr)
    (l : locals) (latency : float) : list call :=
  RecordRequest (rd_request_timestamp rd) (rd_psutil rd) (success l) latency
    (tools_used l) (error_msg l) user_message
  :: (if success l
      then [RecordTrace (rd_trace_now rd) user_message (response_content l)
              (tools_used l) latency true;
            CheckConsistency (rd_check_now rd) user_message
              (response_content l)]
      else []).

(** [invoke_agent_with_metrics].  [observability_enabled] is the module
    flag [OBSERVABILITY_ENABLED]; the result is the returned dictionary and
    the state of [metrics_system] afterwards. *)
Definition invoke_agent_with_metrics {builtins : Builtins}
    (observability_enabled : bool)
    (agent : list message -> agent_outcome) (rd : readings)
    (user_message : pystr) (conversation_history : option (list message))
    (m : metrics) : invocation_result * metrics :=
  let l := try_agent agent user_message conversation_history in
  let latency := PrimFloat.sub (rd_end_time rd) (rd_start_time rd) in
  let m' :=
    if observability_enabled then
      let m1 := record_request (rd_request_timestamp rd) (rd_psutil rd)
                  (success l) latency (tools_used l) (error_msg l)
                  user_message m in
      if success l then
        check_consistency (rd_check_now rd) user_message (response_content l)
          (record_trace (rd_trace_now rd) user_message (response_content l)
             (tools_used l) latency true m1)
      else m1
    else m in
  ({| res_success := success l;
      res_response := response_content l;
      res_latency := latency;
      res_tools_used := tools_used l;
      res_messages := messages_result l |}, m').

(** One use of the function: its readings and arguments. *)
Record turn := {
  tn_readings : readings;
  tn_message : pystr;
  tn_history : option (list message)
}.

(** [metrics_system] after a sequence of invocations, observability
    enabled, starting from a fresh [AgentMetrics]. *)
Definition after_turns {builtins : Builtins}
    (agent : list message -> agent_outcome) (turns : list turn) : metrics :=
  fold_left
    (fun m t => snd (invoke_agent_with_metrics true agent (tn_readings t)
                       (tn_message t) (tn_history t) m))
    turns init.

(** The metric calls of one invocation and of a sequence of them. *)
Definition turn_calls (agent : list message -> agent_outcome) (t : turn)
  : list call :=
  metric_calls (tn_readings t) (tn_message t)
    (try_agent agent (tn_message t) (tn_history t))
    (PrimFloat.sub (rd_end_time (tn_readings t))
       (rd_start_time (tn_readings t))).

Definition calls_of_turns (agent : list message -> agent_outcome)
    (turns : list turn) : list call :=
  flat_map (turn_calls agent) turns.

(** Whether the invocation of a turn succeeds. *)
Definition turn_succeeds (agent : list message -> agent_outcome) (t : turn)
  : bool :=
  success (try_agent agent (tn_message t) (tn_history t)).

End Agent.

(** ** Further predicates used to state properties *)

Module Logs.
Import Py Observability Security.

(** The entries that a call appends, whatever the state. *)
Definition latency_entries_of (c : call) : list latency_entry :=
  match c with
  | RecordRequest ts _ ok lat _ _ _ =>
      [{| lat_timestamp := ts; lat_latency := lat; lat_success := ok |}]
  | _ => []
  end.

Definition error_entries_of (c : call) : list error_entry :=
  match c with
  | RecordRequest ts _ false _ tools err req =>
      [{| err_timestamp := ts; err_error := str_of_opt err;
          err_tools_used := tools; err_request := slice_to 200 req |}]
  | _ => []
  end.

Definition resource_entries_of (c : call) : list resource_entry :=
  match c with
  | RecordRequest _ (Some r) _ _ _ _ _ =>
      [{| res_timestamp := ps_now r;
          res_cpu_percent := ps_cpu_percent r;
          res_memory_percent := ps_memory_percent r;
          res_memory_used_mb := truediv (ps_memory_used r) (1024 * 1024) |}]
  | _ => []
  end.

Definition trace_entries_of (c : call) : list trace_entry :=
  match c with
  | RecordTrace now req resp tools lat ok =>
      [{| tr_timestamp := now; tr_request := slice_to 300 req;
          tr_response := slice_to 500 resp; tr_tools_used := tools;
          tr_latency := lat; tr_success := ok |}]
  | _ => []
  end.

Definition precision_entries_of (c : call) : list precision_entry :=
  match c with
  | CalculatePrecision now (e :: es) act =>
      [{| pr_timestamp := now;
          pr_precision := precision_of (e :: es) act;
          pr_expected := e :: es; pr_actual := act |}]
  | _ => []
  end.

(** The entry that a call appends to [consistency_checks] in the state
    [m]: the count of similar queries is taken over the checks that [m]
    retains. *)
Definition consistency_entries_of {builtins : Builtins} (m : metrics)
    (c : call) : list consistency_entry :=
  match c with
  | CheckConsistency now q r =>
      [{| cc_timestamp := now; cc_query := slice_to 200 q;
          cc_response := slice_to 200 r;
          cc_similar_previous := similar_count q (consistency_checks m) |}]
  | _ => []
  end.

(** The calls of [check_consistency]. *)
Definition is_check (c : call) : bool :=
  match c with
  | CheckConsistency _ _ _ => true
  | _ => false
  end.

(** The tool names passed to [record_request] by a call. *)
Definition tools_of (c : call) : list pystr :=
  match c with
  | RecordRequest _ _ _ _ tools _ _ => tools
  | _ => []
  end.

(** How many times [tool] occurs in [tools]. *)
Definition occurrences (tool : pystr) (tools : list pystr) : Z :=
  len (filter (fun t => t = tool) tools).

(** The requests of [ip] among [reqs]. *)
Definition requests_from (ip : pystr) (reqs : list request) : list request :=
  filter (fun r => rq_ip r = ip) reqs.

(** The results given to [ip], in order. *)
Definition results_for (ip : pystr) (reqs : list request)
    (results : list (bool * Z)) : list (bool * Z) :=
  snd <$> filter (fun p => rq_ip (fst p) = ip) (zip reqs results).

(** The clock readings of the requests of [ip] that were allowed. *)
Definition admitted (ip : pystr) (reqs : list request)
    (results : list (bool * Z)) : list Z :=
  (fun p => rq_now (fst p))
    <$> filter (fun p => rq_ip (fst p) = ip /\ fst (snd p) = true)
          (zip reqs results).

(** The audit event of a rejected request. *)
Definition rejection_event (r : request) : security_event :=
  {| ev_timestamp := rq_log_now r;
     ev_type := lit "rate_limit_exceeded";
     ev_details := exceeded_details 20 60;
     ev_ip := anonymize_ip (rq_ip r) |}.

(** The events of all the rejected requests, in the order of the
    requests. *)
Definition rejection_events (reqs : list request)
    (results : list (bool * Z)) : list security_event :=
  flat_map (fun p : request * (bool * Z) =>
              if fst (snd p) then [] else [rejection_event (fst p)])
    (zip reqs results).

(** The number of rejections among the results. *)
Definition rejections (results : list (bool * Z)) : nat :=
  length (filter (fun res => fst res = false) results).

(** The clock never goes back along the requests. *)
Definition clock_monotone (reqs : list request) : Prop :=
  forall i j ri rj,
    (i <= j)%nat -> reqs !! i = Some ri -> reqs !! j = Some rj ->
    rq_now ri <= rq_now rj.

End Logs.

(** * Properties *)

(** ** Slices and trims *)

Module PyFacts.
Import Py.

Lemma slice_last_length {A} (k : nat) (l : list A) :
  length (slice_last k l) = Nat.min k (length l).
Proof. unfold slice_last. rewrite length_drop. lia. Qed.

Lemma slice_last_suffix {A} (k : nat) (l : list A) :
  slice_last k l `suffix_of` l.
Proof. apply suffix_drop. Qed.

Lemma slice_last_short {A} (k : nat) (l : list A) :
  (length l <= k)%nat -> slice_last k l = l.
Proof.
  intros Hle. unfold slice_last.
  replace (length l - k)%nat with 0%nat by lia. reflexivity.
Qed.

Lemma slice_last_snoc {A} (k : nat) (l : list A) (x : A) :
  (0 < k)%nat -> last (slice_last k (l ++ [x])) = Some x.
Proof.
  intros Hk. unfold slice_last.
  rewrite length_app. simpl.
  rewrite drop_app_le by lia.
  apply last_snoc.
Qed.

(** *** The float operations on known values *)

(** [round(1.2345, 3) == 1.234], [round(0.0005, 3) == 0.001] (the float
    0.0005 lies above the decimal), [round(2.675, 2) == 2.67] (the float
    lies below it), [round(-0.0004, 3) == -0.0]. *)
Example round_known_values :
  round 0x1.3c083126e978dp+0 3 = 0x1.3be76c8b43958p+0%float
  /\ round 0x1.0624dd2f1a9fcp-11 3 = 0x1.0624dd2f1a9fcp-10%float
  /\ round 0x1.5666666666666p+1 2 = 0x1.55c28f5c28f5cp+1%float
  /\ round (-0x1.a36e2eb1c432dp-12) 3 = neg_zero
  /\ round 96 3 = 96%float.
Proof. repeat split; vm_compute; reflexivity. Qed.

(** [1 / 3], [7 / 10] (the float of the literal [0.7]), [3 / 4],
    [10**20 / 3], and [int(100 * 0.95) == 95]. *)
Example truediv_known_values :
  truediv 1 3 = 0x1.5555555555555p-2%float
  /\ truediv 7 10 = 0x1.6666666666666p-1%float
  /\ truediv 3 4 = 0.75%float
  /\ truediv 100000000000000000000 3 = 0x1.ce97ca0f21055p+64%float
  /\ int_of_float (PrimFloat.mul (float_of_int 100) 0x1.e666666666666p-1)
     = 95.
Proof. repeat split; vm_compute; reflexivity. Qed.

(** ["  ab  c d ".split()] and ["10.0.0.1".split(".")]. *)
Example split_known_values :
  split_ws (lit "  ab  c d ") = [lit "ab"; lit "c"; lit "d"]
  /\ split_on 46 (lit "10.0.0.1") = [lit "10"; lit "0"; lit "0"; lit "1"]
  /\ split_ws (lit "   ") = [].
Proof. repeat split. Qed.

(** *** Division of an integer by itself *)

Lemma div_core_self (p : positive) :
  SFdiv_core_binary prec emax (Z.pos p) 0 (Z.pos p) 0
  = (2 ^ 53, -53, loc_Exact).
Proof.
  unfold SFdiv_core_binary.
  replace (Zdigits2 (Z.pos p) + 0 - (Zdigits2 (Z.pos p) + 0)) with 0 by lia.
  change (Z.min (fexp prec emax 0) (0 - 0)) with (-53).
  change (0 - 0 - -53) with 53.
  cbv beta iota zeta.
  rewrite Z.shiftl_mul_pow2 by lia.
  assert (Hd : Z.div_eucl (Z.pos p * 2 ^ 53) (Z.pos p) = (2 ^ 53, 0)).
  { transitivity ((Z.pos p * 2 ^ 53) / Z.pos p,
                  (Z.pos p * 2 ^ 53) mod Z.pos p).
    - unfold Z.div, Z.modulo.
      destruct (Z.div_eucl (Z.pos p * 2 ^ 53) (Z.pos p)); reflexivity.
    - rewrite (Z.mul_comm (Z.pos p)), Z.div_mul, Z.mod_mul by lia.
      reflexivity. }
  rewrite Hd.
  unfold new_location, new_location_even, new_location_odd.
  destruct (Z.even (Z.pos p)); reflexivity.
Qed.

Lemma truediv_self (n : Z) : 0 < n -> truediv n n = one.
Proof.
  intros Hn. destruct n as [|p|p]; try lia.
  unfold truediv, SF_of_int, SFdiv. rewrite div_core_self.
  vm_compute. reflexivity.
Qed.

(** *** [sorted] *)

Section SortedFacts.
Context {A : Type} (lt : A -> A -> bool).

Lemma insert_sorted_perm (x : A) (l : list A) :
  Permutation (insert_sorted lt x l) (x :: l).
Proof.
  induction l as [|y l IH]; simpl; [reflexivity|].
  destruct (lt y x); [|reflexivity].
  rewrite IH. apply perm_swap.
Qed.

Lemma sorted_perm (l : list A) : Permutation (sorted lt l) l.
Proof.
  induction l as [|x l IH]; simpl; [reflexivity|].
  rewrite insert_sorted_perm. constructor. exact IH.
Qed.

Lemma sorted_length (l : list A) : length (sorted lt l) = length l.
Proof. apply Permutation_length, sorted_perm. Qed.

(** When [lt] is asymmetric, no element of the result is greater than its
    successor. *)
Hypothesis lt_asym : forall x y, lt x y = true -> lt y x = false.

Lemma insert_sorted_hd (x a : A) (l : list A) :
  lt x a = false -> HdRel (fun u v => lt v u = false) a l ->
  HdRel (fun u v => lt v u = false) a (insert_sorted lt x l).
Proof.
  intros Hxa Hhd. destruct l as [|y l]; simpl.
  - constructor. exact Hxa.
  - inversion Hhd; subst. destruct (lt y x); constructor; assumption.
Qed.

Lemma insert_sorted_Sorted (x : A) (l : list A) :
  Sorted (fun u v => lt v u = false) l ->
  Sorted (fun u v => lt v u = false) (insert_sorted lt x l).
Proof.
  induction 1 as [|y l Hs IH Hhd]; simpl.
  - repeat constructor.
  - destruct (lt y x) eqn:Hyx.
    + constructor; [exact IH|].
      apply insert_sorted_hd; [apply lt_asym, Hyx | exact Hhd].
    + constructor; [constructor; assumption|]. constructor. exact Hyx.
Qed.

Lemma sorted_Sorted (l : list A) :
  Sorted (fun u v => lt v u = false) (sorted lt l).
Proof.
  induction l as [|x l IH]; simpl; [constructor|].
  apply insert_sorted_Sorted, IH.
Qed.

End SortedFacts.

(** [<] on floats is asymmetric. *)
Lemma SFcompare_Lt_Gt (a b : spec_float) :
  SFcompare a b = Some Lt -> SFcompare b a = Some Gt.
Proof.
  destruct a as [sa|sa| |sa ma ea], b as [sb|sb| |sb mb eb]; simpl;
    try discriminate; try (destruct sa; discriminate);
    try (destruct sb; discriminate);
    try (destruct sa, sb; (discriminate || reflexivity)).
  change (Pos.compare_cont Eq ma mb) with (Pos.compare ma mb).
  change (Pos.compare_cont Eq mb ma) with (Pos.compare mb ma).
  rewrite (Z.compare_antisym ea eb), (Pos.compare_antisym ma mb).
  destruct sa, sb; try (discriminate || reflexivity);
    destruct (ea ?= eb); simpl; try (discriminate || reflexivity);
    destruct (ma ?= mb)%positive; simpl; (discriminate || reflexivity).
Qed.

Lemma ltb_asym (x y : float) :
  PrimFloat.ltb x y = true -> PrimFloat.ltb y x = false.
Proof.
  rewrite !ltb_spec. unfold SFltb. intros Hlt.
  destruct (SFcompare (Prim2SF x) (Prim2SF y)) as [[| |]|] eqn:Hc;
    try discriminate.
  rewrite (SFcompare_Lt_Gt _ _ Hc). reflexivity.
Qed.

Lemma sorted_floats_Sorted (l : list float) :
  Sorted (fun u v => PrimFloat.ltb v u = false) (sorted PrimFloat.ltb l).
Proof. apply sorted_Sorted, ltb_asym. Qed.

End PyFacts.

(** ** AgentMetrics: bounded histories and counters *)

Module ObservabilityFacts.
Import Py Observability Spec Logs PyFacts.

Lemma trim_slice_last {A} (cap : nat) (l : list A) :
  trim cap l = slice_last cap l.
Proof.
  unfold trim, len. destruct (Z.ltb_spec (Z.of_nat cap) (Z.of_nat (length l))).
  - reflexivity.
  - symmetry. apply slice_last_short. lia.
Qed.

Lemma trim_length {A} (cap : nat) (l : list A) :
  length (trim cap l) = Nat.min cap (length l).
Proof. rewrite trim_slice_last. apply slice_last_length. Qed.

Lemma trim_suffix {A} (cap : nat) (l : list A) : trim cap l `suffix_of` l.
Proof. rewrite trim_slice_last. apply slice_last_suffix. Qed.

Lemma keeps_tail_trim_snoc {A} (cap : nat) (l : list A) (x : A) :
  keeps_tail cap l [x] (trim cap (l ++ [x])).
Proof. split; [apply trim_suffix | apply trim_length]. Qed.

Lemma keeps_tail_same {A} (cap : nat) (l : list A) :
  (length l <= cap)%nat -> keeps_tail cap l [] l.
Proof.
  intros Hle. unfold keeps_tail. rewrite app_nil_r.
  split; [reflexivity | lia].
Qed.


(** What one call does to each field. *)

Lemma record_request_latency_history ts rd ok lat tools err req m :
  latency_history (record_request ts rd ok lat tools err req m)
  = trim 100 (latency_history m
              ++ [{| lat_timestamp := ts; lat_latency := lat;
                     lat_success := ok |}]).
Proof. destruct ok, rd; reflexivity. Qed.

Lemma record_request_resource_usage ts rd ok lat tools err req m :
  resource_usage (record_request ts rd ok lat tools err req m)
  = match rd with
    | None => resource_usage m
    | Some r =>
        trim 50 (resource_usage m
                 ++ [{| res_timestamp := ps_now r;
                        res_cpu_percent := ps_cpu_percent r;
                        res_memory_percent := ps_memory_percent r;
                        res_memory_used_mb :=
                          truediv (ps_memory_used r) (1024 * 1024) |}])
    end.
Proof. destruct ok, rd; reflexivity. Qed.

Lemma record_request_errors ts rd ok lat tools err req m :
  errors (record_request ts rd ok lat tools err req m)
  = if ok then errors m
    else errors m ++ [{| err_timestamp := ts; err_error := str_of_opt err;
                         err_tools_used := tools;
                         err_request := slice_to 200 req |}].
Proof. destruct ok, rd; reflexivity. Qed.

Lemma record_request_counters ts rd ok lat tools err req m :
  let m' := record_request ts rd ok lat tools err req m in
  total_requests m' = total_requests m + 1
  /\ successful_requests m'
     = successful_requests m + (if ok then 1 else 0)
  /\ failed_requests m' = failed_requests m + (if ok then 0 else 1).
Proof. destruct ok, rd; simpl; repeat split; lia. Qed.

Lemma record_request_others ts rd ok lat tools err req m :
  let m' := record_request ts rd ok lat tools err req m in
  precision_scores m' = precision_scores m
  /\ execution_traces m' = execution_traces m
  /\ consistency_checks m' = consistency_checks m.
Proof. destruct ok, rd; repeat split. Qed.

Section Calls.
Context {builtins : Builtins}.

Lemma run_snoc (calls : list call) (c : call) :
  run (calls ++ [c]) = step (run calls) c.
Proof. unfold run. rewrite fold_left_app. reflexivity. Qed.

(** Each history after one call, as a trim of the old one extended. *)
Lemma step_latency_history (m : metrics) (c : call) :
  latency_history (step m c)
  = match c with
    | RecordRequest ts _ ok lat _ _ _ =>
        trim 100 (latency_history m
                  ++ [{| lat_timestamp := ts; lat_latency := lat;
                         lat_success := ok |}])
    | _ => latency_history m
    end.
Proof.
  destruct c as [ts rd ok lat tools err req| | now ex act |]; simpl.
  - apply record_request_latency_history.
  - reflexivity.
  - destruct ex; reflexivity.
  - reflexivity.
Qed.

Lemma step_precision_scores (m : metrics) (c : call) :
  precision_scores (step m c)
  = match c with
    | CalculatePrecision now (e :: es) act =>
        trim 50 (precision_scores m
                 ++ [{| pr_timestamp := now;
                        pr_precision := precision_of (e :: es) act;
                        pr_expected := e :: es; pr_actual := act |}])
    | _ => precision_scores m
    end.
Proof.
  destruct c as [ts rd ok lat tools err req| | now ex act |]; simpl.
  - apply record_request_others.
  - reflexivity.
  - destruct ex; reflexivity.
  - reflexivity.
Qed.

Lemma step_resource_usage (m : metrics) (c : call) :
  resource_usage (step m c)
  = match c with
    | RecordRequest _ (Some r) _ _ _ _ _ =>
        trim 50 (resource_usage m
                 ++ [{| res_timestamp := ps_now r;
                        res_cpu_percent := ps_cpu_percent r;
                        res_memory_percent := ps_memory_percent r;
                        res_memory_used_mb :=
                          truediv (ps_memory_used r) (1024 * 1024) |}])
    | _ => resource_usage m
    end.
Proof.
  destruct c as [ts rd ok lat tools err req| | now ex act |]; simpl.
  - rewrite record_request_resource_usage. destruct rd; reflexivity.
  - reflexivity.
  - destruct ex; reflexivity.
  - reflexivity.
Qed.

Lemma step_execution_traces (m : metrics) (c : call) :
  execution_traces (step m c)
  = match c with
    | RecordTrace now req resp tools lat ok =>
        trim 50 (execution_traces m
                 ++ [{| tr_timestamp := now;
                        tr_request := slice_to 300 req;
                        tr_response := slice_to 500 resp;
                        tr_tools_used := tools; tr_latency := lat;
                        tr_success := ok |}])
    | _ => execution_traces m
    end.
Proof.
  destruct c as [ts rd ok lat tools err req| | now ex act |]; simpl.
  - apply record_request_others.
  - reflexivity.
  - destruct ex; reflexivity.
  - reflexivity.
Qed.

Lemma step_consistency_checks (m : metrics) (c : call) :
  consistency_checks (step m c)
  = match c with
    | CheckConsistency now q r =>
        trim 30 (consistency_checks m
                 ++ [{| cc_timestamp := now;
                        cc_query := slice_to 200 q;
                        cc_response := slice_to 200 r;
                        cc_similar_previous :=
                          similar_count q (consistency_checks m) |}])
    | _ => consistency_checks m
    end.
Proof.
  destruct c as [ts rd ok lat tools err req| | now ex act |]; simpl.
  - apply record_request_others.
  - reflexivity.
  - destruct ex; reflexivity.
  - reflexivity.
Qed.

Lemma step_errors (m : metrics) (c : call) :
  errors (step m c)
  = match c with
    | RecordRequest ts _ false _ tools err req =>
        errors m ++ [{| err_timestamp := ts; err_error := str_of_opt err;
                        err_tools_used := tools;
                        err_request := slice_to 200 req |}]
    | _ => errors m
    end.
Proof.
  destruct c as [ts rd ok lat tools err req| | now ex act |]; simpl.
  - rewrite record_request_errors. destruct ok; reflexivity.
  - reflexivity.
  - destruct ex; reflexivity.
  - reflexivity.
Qed.

Lemma step_counters (m : metrics) (c : call) :
  total_requests (step m c)
  = total_requests m + (if is_record_request c then 1 else 0)
  /\ failed_requests (step m c)
     = failed_requests m + (if is_failed_request c then 1 else 0)
  /\ successful_requests (step m c)
     = successful_requests m
       + (if is_record_request c && negb (is_failed_request c)
          then 1 else 0).
Proof.
  destruct c as [ts rd ok lat tools err req| | now ex act |]; simpl.
  - destruct (record_request_counters ts rd ok lat tools err req m)
      as (Ht & Hs & Hf).
    rewrite Ht, Hs, Hf. destruct ok; simpl; repeat split; lia.
  - repeat split; lia.
  - destruct ex; simpl; repeat split; lia.
  - repeat split; lia.
Qed.

(** The capacities are kept by every call. *)
Lemma step_within_capacity (m : metrics) (c : call) :
  within_capacity m -> within_capacity (step m c).
Proof.
  intros (Hl & Hp & Hr & Ht & Hc). unfold within_capacity.
  rewrite step_latency_history, step_precision_scores, step_resource_usage,
    step_execution_traces, step_consistency_checks.
  destruct c as [ts [r|] ok lat tools err req| | now [|e es] act |];
    rewrite ?trim_length; repeat split; lia.
Qed.

Lemma run_within_capacity (calls : list call) : within_capacity (run calls).
Proof.
  induction calls as [|c calls IH] using rev_ind.
  - unfold within_capacity; simpl; lia.
  - rewrite run_snoc. apply step_within_capacity, IH.
Qed.

(** C1. After every sequence of calls of [record_request], [record_trace],
    [calculate_precision] and [check_consistency] on a fresh AgentMetrics,
    [latency_history] holds at most 100 entries, [precision_scores],
    [resource_usage] and [execution_traces] at most 50 each and
    [consistency_checks] at most 30; and whatever call comes next, each
    history is afterwards a suffix of the old history followed by the
    entries that this call appends, of length the minimum of the capacity
    and the length of that extended history: a trim drops the oldest
    entries, and only as many as exceed the capacity, and keeps the most
    recently appended ones. *)
Theorem histories_bounded_keep_tail (calls : list call) (c : call) :
  within_capacity (run calls)
  /\ keeps_tail 100 (latency_history (run calls)) (latency_entries_of c)
       (latency_history (run (calls ++ [c])))
  /\ keeps_tail 50 (precision_scores (run calls)) (precision_entries_of c)
       (precision_scores (run (calls ++ [c])))
  /\ keeps_tail 50 (resource_usage (run calls)) (resource_entries_of c)
       (resource_usage (run (calls ++ [c])))
  /\ keeps_tail 50 (execution_traces (run calls)) (trace_entries_of c)
       (execution_traces (run (calls ++ [c])))
  /\ keeps_tail 30 (consistency_checks (run calls))
       (consistency_entries_of (run calls) c)
       (consistency_checks (run (calls ++ [c]))).
Proof.
  pose proof (run_within_capacity calls) as Hcap.
  split; [exact Hcap|].
  destruct Hcap as (Hl & Hp & Hr & Ht & Hc).
  rewrite run_snoc, step_latency_history, step_precision_scores,
    step_resource_usage, step_execution_traces, step_consistency_checks.
  destruct c as [ts [r|] ok lat tools err req| | now [|e es] act |];
    cbn [latency_entries_of precision_entries_of resource_entries_of
         trace_entries_of consistency_entries_of];
    repeat (match goal with |- _ /\ _ => split end);
    first [apply keeps_tail_trim_snoc | apply keeps_tail_same; assumption].
Qed.

(** The counters along a run. *)
Lemma run_counters (calls : list call) :
  total_requests (run calls) = requests_in calls
  /\ failed_requests (run calls) = failures_in calls
  /\ successful_requests (run calls) = requests_in calls - failures_in calls.
Proof.
  induction calls as [|c calls (IHt & IHf & IHs)] using rev_ind.
  - repeat split.
  - rewrite run_snoc.
    destruct (step_counters (run calls) c) as (Ht & Hf & Hs).
    rewrite Ht, Hf, Hs, IHt, IHf, IHs.
    unfold requests_in, failures_in, len.
    rewrite !List.filter_app, !length_app. simpl.
    destruct c as [ts rd [|] lat tools err req| | |]; simpl;
      repeat split; lia.
Qed.

(** One latency entry per recorded request, up to the capacity. *)
Lemma run_latency_length (calls : list call) :
  Z.of_nat (length (latency_history (run calls)))
  = Z.min 100 (requests_in calls).
Proof.
  induction calls as [|c calls IH] using rev_ind.
  - reflexivity.
  - rewrite run_snoc, step_latency_history. unfold requests_in, len in *.
    rewrite List.filter_app, length_app.
    destruct c as [ts rd ok lat tools err req| | |];
      cbn [List.filter is_record_request length];
      rewrite ?trim_length, ?length_app; cbn [length]; lia.
Qed.

Lemma failures_le_requests (calls : list call) :
  0 <= failures_in calls <= requests_in calls.
Proof.
  unfold failures_in, requests_in, len.
  induction calls as [|c calls IH]; simpl; [lia|].
  destruct c as [ts rd [|] lat tools err req| | |]; simpl; lia.
Qed.

(** C2. After every sequence of calls, [total_requests] is the sum of
    [successful_requests] and [failed_requests], the three counters are
    non-negative, and whatever call comes next none of them decreases. *)
Theorem counters_consistent_monotone (calls : list call) (c : call) :
  total_requests (run calls)
  = successful_requests (run calls) + failed_requests (run calls)
  /\ 0 <= total_requests (run calls)
  /\ 0 <= successful_requests (run calls)
  /\ 0 <= failed_requests (run calls)
  /\ total_requests (run calls) <= total_requests (run (calls ++ [c]))
  /\ successful_requests (run calls)
     <= successful_requests (run (calls ++ [c]))
  /\ failed_requests (run calls) <= failed_requests (run (calls ++ [c])).
Proof.
  destruct (run_counters calls) as (Ht & Hf & Hs).
  pose proof (failures_le_requests calls) as Hle.
  rewrite run_snoc.
  destruct (step_counters (run calls) c) as (Ht' & Hf' & Hs').
  rewrite Ht', Hf', Hs', Ht, Hf, Hs.
  destruct (is_record_request c), (is_failed_request c); simpl;
    repeat split; lia.
Qed.

(** The error list grows by one entry per failed request and by nothing
    else. *)
Lemma run_errors_length (calls : list call) :
  len (errors (run calls)) = failures_in calls.
Proof.
  induction calls as [|c calls IH] using rev_ind.
  - reflexivity.
  - rewrite run_snoc, step_errors. unfold failures_in, len in *.
    rewrite List.filter_app, length_app. simpl.
    destruct c as [ts rd [|] lat tools err req| | |]; simpl;
      rewrite ?length_app; simpl; lia.
Qed.

(** C7. After every sequence of calls, the [error_count] of [get_summary]
    is the number of failed requests recorded since the start, which is
    also [failed_requests]; no call ever removes an entry of [errors]
    (the list before a call is a prefix of the list after it); and
    [recent_errors] is the tail of [errors] of at most 10 records. *)
Theorem error_count_cumulative (calls : list call) (c : call) (now : pystr) :
  let s := get_summary now (run calls) in
  Summary.error_count s = failures_in calls
  /\ Summary.error_count s = Summary.failed_requests s
  /\ errors (run calls) `prefix_of` errors (run (calls ++ [c]))
  /\ Summary.recent_errors s `suffix_of` errors (run calls)
  /\ length (Summary.recent_errors s)
     = Nat.min 10 (length (errors (run calls))).
Proof.
  unfold get_summary, build_summary.
  cbn [Summary.error_count Summary.failed_requests Summary.recent_errors].
  destruct (run_counters calls) as (_ & Hf & _).
  rewrite run_errors_length, Hf, run_snoc, step_errors.
  repeat split.
  - destruct c as [ts rd [|] lat tools err req| | |];
      first [reflexivity | apply prefix_app_r; reflexivity].
  - apply slice_last_suffix.
  - apply slice_last_length.
Qed.

(** *** Tool-selection precision *)

Lemma size_union_pos (e : pystr) (es actual : list pystr) :
  0 < Z.of_nat (size (list_to_set (e :: es) ∪ list_to_set actual
                      : gset pystr)).
Proof.
  assert (size (list_to_set (e :: es) ∪ list_to_set actual : gset pystr)
          <> 0%nat) as Hne; [|lia].
  intros Hz. apply size_empty_iff in Hz.
  assert (e ∈ (list_to_set (e :: es) ∪ list_to_set actual : gset pystr))
    as Hin by set_solver.
  rewrite Hz in Hin. set_solver.
Qed.

(** C5. [calculate_precision] returns 1.0 when [expected_tools] is empty;
    when it is not, the union of the two sets is not empty and the result
    is the quotient of the size of the intersection of the two sets by the
    size of their union; on ["a", "b"] and ["a"] the result is 0.5. *)
Theorem calculate_precision_jaccard (now : pystr) (e : pystr)
    (es actual : list pystr) (m : metrics) :
  fst (calculate_precision now [] actual m) = 1%float
  /\ 0 < Z.of_nat (size (list_to_set (e :: es) ∪ list_to_set actual
                         : gset pystr))
  /\ fst (calculate_precision now (e :: es) actual m)
     = truediv
         (Z.of_nat (size (list_to_set (e :: es) ∩ list_to_set actual
                          : gset pystr)))
         (Z.of_nat (size (list_to_set (e :: es) ∪ list_to_set actual
                          : gset pystr)))
  /\ fst (calculate_precision now [lit "a"; lit "b"] [lit "a"] m)
     = 0.5%float.
Proof.
  pose proof (size_union_pos e es actual) as Hpos.
  split; [reflexivity|]. split; [exact Hpos|]. split.
  - cbn [calculate_precision fst]. unfold precision_of.
    apply Z.ltb_lt in Hpos. rewrite Hpos. reflexivity.
  - vm_compute. reflexivity.
Qed.

(** C6, as the code has it.  A call with a non-empty [expected_tools]
    appends exactly one entry, holding the computed score, [expected_tools]
    and [actual_tools], and then keeps the last 50 entries; the appended
    entry is the last one of [precision_scores] and its score is the value
    returned.  A call with an empty [expected_tools] returns 1.0 and leaves
    the state as it was. *)
Theorem calculate_precision_records_score (now : pystr) (e : pystr)
    (es actual : list pystr) (m : metrics) :
  let '(p, m') := calculate_precision now (e :: es) actual m in
  let entry := {| pr_timestamp := now; pr_precision := p;
                  pr_expected := e :: es; pr_actual := actual |} in
  precision_scores m' = slice_last 50 (precision_scores m ++ [entry])
  /\ last (precision_scores m') = Some entry
  /\ pr_precision entry = p
  /\ calculate_precision now [] actual m = (1%float, m).
Proof.
  cbn [calculate_precision calculate_precision_body exec fold_left].
  unfold cp_trim, cp_append.
  cbn [precision_scores set_precision_scores].
  rewrite trim_slice_last.
  repeat split. apply slice_last_snoc. lia.
Qed.

(** *** Percentiles *)

Lemma percentile_idx_table :
  forallb
    (fun k =>
       let n := Z.of_nat k in
       (int_of_float (PrimFloat.mul (float_of_int n) q95) =? n * 95 / 100)
       && (int_of_float (PrimFloat.mul (float_of_int n) q99) =? n * 99 / 100))
    (seq 1 100) = true.
Proof. vm_compute. reflexivity. Qed.

(** On a history of 1 to 100 entries, the index computed in floating point
    is the integer floor. *)
Lemma percentile_idx_floor (l : list float) :
  (1 <= length l <= 100)%nat ->
  percentile_idx q95 l = len l * 95 / 100
  /\ percentile_idx q99 l = len l * 99 / 100.
Proof.
  intros Hlen. unfold percentile_idx, len.
  pose proof percentile_idx_table as Htab.
  rewrite forallb_forall in Htab.
  specialize (Htab (length l)). cbv zeta in Htab.
  rewrite andb_true_iff, !Z.eqb_eq in Htab.
  apply Htab, in_seq. lia.
Qed.

Lemma percentile_floor (num : Z) (q : float) (l : list float) :
  l <> [] ->
  percentile_idx q (sorted PrimFloat.ltb l) = len l * num / 100 ->
  0 <= num < 100 ->
  0 <= len l * num / 100 < len l
  /\ percentile q l
     = default zero
         (sorted PrimFloat.ltb l !! Z.to_nat (len l * num / 100)).
Proof.
  intros Hne Hidx Hnum.
  assert (0 < len l) as Hpos.
  { unfold len. destruct l; [congruence | simpl; lia]. }
  assert (0 <= len l * num / 100 < len l) as Hlt.
  { split; [apply Z.div_pos; nia|].
    apply Z.div_lt_upper_bound; nia. }
  split; [exact Hlt|].
  unfold percentile. destruct l as [|x l]; [congruence|].
  rewrite Hidx. unfold percentile_at.
  replace (len (sorted PrimFloat.ltb (x :: l))) with (len (x :: l))
    by (unfold len; rewrite sorted_length; reflexivity).
  destruct (Z.ltb_spec (len (x :: l) * num / 100) (len (x :: l)));
    [reflexivity | lia].
Qed.

(** C4, as the code has it.  On a non-empty retained history of [n]
    latencies, the sorted sample is a permutation of the history in which
    no latency is greater than its successor, the indices [floor(n*0.95)]
    and [floor(n*0.99)] lie within it (the clamp to the last index is never
    needed), and [p95_latency] and [p99_latency] are the latencies at
    those indices rounded to three decimals.  On the sample 1, 2, ..., 100
    they are 96 and 100; with a single latency [x] retained both are [x]
    rounded to three decimals. *)
Theorem percentiles_rounded (calls : list call) (now : pystr) (x : float)
    (Hne : latency_history (run calls) <> []) :
  let lats := map lat_latency (latency_history (run calls)) in
  let n := len lats in
  let s := sorted PrimFloat.ltb lats in
  let smry := get_summary now (run calls) in
  (Permutation s lats
   /\ Sorted (fun u v => PrimFloat.ltb v u = false) s
   /\ 0 <= n * 95 / 100 < n /\ 0 <= n * 99 / 100 < n
   /\ Summary.p95_latency smry
      = round (default zero (s !! Z.to_nat (n * 95 / 100))) 3
   /\ Summary.p99_latency smry
      = round (default zero (s !! Z.to_nat (n * 99 / 100))) 3)
  /\ (Summary.p95_latency (get_summary now (run sample_calls)) = 96%float
      /\ Summary.p99_latency (get_summary now (run sample_calls))
         = 100%float)
  /\ (forall ts rd ok tools err req,
        let one_call := [RecordRequest ts rd ok x tools err req] in
        Summary.p95_latency (get_summary now (run one_call)) = round x 3
        /\ Summary.p99_latency (get_summary now (run one_call)) = round x 3).
Proof.
  intros lats n s smry. split; [|split].
  - assert (lats <> []) as Hlats.
    { subst lats. destruct (latency_history (run calls)); [congruence|].
      discriminate. }
    assert (1 <= length s <= 100)%nat as Hlen.
    { subst s lats. rewrite sorted_length, length_map.
      destruct (run_within_capacity calls) as (Hcap & _).
      destruct (latency_history (run calls)); [congruence | simpl in *; lia]. }
    destruct (percentile_idx_floor s Hlen) as (H95 & H99).
    assert (len s = n) as Hn.
    { subst s n. unfold len. rewrite sorted_length. reflexivity. }
    rewrite Hn in H95, H99.
    destruct (percentile_floor 95 q95 lats Hlats H95 ltac:(lia)) as (Hb95 & E95).
    destruct (percentile_floor 99 q99 lats Hlats H99 ltac:(lia)) as (Hb99 & E99).
    repeat split; try (apply Hb95 || apply Hb99).
    + apply sorted_perm.
    + apply sorted_floats_Sorted.
    + subst smry. unfold get_summary, build_summary, compute_locals.
      cbn [Summary.p95_latency loc_p95_latency]. fold lats. rewrite E95.
      reflexivity.
    + subst smry. unfold get_summary, build_summary, compute_locals.
      cbn [Summary.p99_latency loc_p99_latency]. fold lats. rewrite E99.
      reflexivity.
  - split; vm_compute; reflexivity.
  - intros ts rd ok tools err req one_call. subst one_call.
    unfold get_summary, build_summary, compute_locals, run.
    cbn [Summary.p95_latency Summary.p99_latency loc_p95_latency
         loc_p99_latency fold_left step].
    rewrite record_request_latency_history.
    split; reflexivity.
Qed.

(** *** Consistency checks *)

Lemma similar_count_acc (q : pystr) (checks : list consistency_entry)
    (a : Z) :
  fold_left
    (fun count check =>
       if PrimFloat.ltb threshold
            (similarity (lower q) (lower (cc_query check)))
       then count + 1 else count)
    checks a
  = a + similar_count q checks.
Proof.
  unfold similar_count. revert a.
  induction checks as [|x checks IH]; intros a; simpl; [lia|].
  destruct (PrimFloat.ltb _ _).
  - rewrite (IH (a + 1)), (IH (0 + 1)). lia.
  - apply IH.
Qed.

Lemma similar_count_nonneg (q : pystr) (checks : list consistency_entry) :
  0 <= similar_count q checks.
Proof.
  induction checks as [|x checks IH]; [reflexivity|].
  unfold similar_count in *. simpl. rewrite similar_count_acc.
  unfold similar_count. destruct (PrimFloat.ltb _ _); lia.
Qed.

Lemma similar_count_snoc (q : pystr) (checks : list consistency_entry)
    (x : consistency_entry) :
  similar_count q (checks ++ [x])
  = similar_count q checks
    + (if PrimFloat.ltb threshold
            (similarity (lower q) (lower (cc_query x)))
       then 1 else 0).
Proof.
  unfold similar_count at 1. rewrite fold_left_app. simpl.
  fold (similar_count q checks). destruct (PrimFloat.ltb _ _); lia.
Qed.

(** A text with at least one word is fully similar to itself. *)
Lemma similarity_self (s : pystr) :
  split_ws s <> [] -> similarity s s = 1%float.
Proof.
  intros Hne. unfold similarity. cbv zeta.
  set (W := list_to_set (split_ws s) : gset pystr).
  assert (W <> ∅) as Hset.
  { subst W. destruct (split_ws s) as [|w ws]; [congruence|]. set_solver. }
  rewrite bool_decide_eq_false_2 by exact Hset.
  cbn [orb].
  assert (W ∩ W = W) as -> by (clearbody W; apply intersection_idemp_L).
  assert (W ∪ W = W) as -> by (clearbody W; apply union_idemp_L).
  assert (0 < Z.of_nat (size W)) as Hpos.
  { assert (size W <> 0%nat); [|lia].
    intros Hz. apply size_empty_iff in Hz. apply Hset.
    apply leibniz_equiv. exact Hz. }
  pose proof Hpos as Hpos'. apply Z.ltb_lt in Hpos'. rewrite Hpos'.
  apply truediv_self. exact Hpos.
Qed.

(** C8, as the code has it.  For a query [q] of at most 200 characters
    whose lower-cased text has at least one word, after
    [check_consistency(q, r1)] a second [check_consistency(q, r2)] records
    as its newest entry the query [q] with a [similar_previous] count of at
    least 1. *)
Theorem repeated_query_counted (now1 now2 q r1 r2 : pystr) (m : metrics)
    (Hlen : (length q <= 200)%nat) (Hword : split_ws (lower q) <> []) :
  exists e,
    last (consistency_checks
            (check_consistency now2 q r2 (check_consistency now1 q r1 m)))
    = Some e
    /\ cc_query e = q
    /\ cc_response e = slice_to 200 r2
    /\ 1 <= cc_similar_previous e.
Proof.
  pose (m1 := check_consistency now1 q r1 m).
  pose (e1 := {| cc_timestamp := now1; cc_query := slice_to 200 q;
                 cc_response := slice_to 200 r1;
                 cc_similar_previous :=
                   similar_count q (consistency_checks m) |}).
  assert (last (consistency_checks m1) = Some e1) as Hlast1.
  { subst m1. change (check_consistency now1 q r1 m)
      with (step m (CheckConsistency now1 q r1)).
    rewrite step_consistency_checks, trim_slice_last.
    apply slice_last_snoc. lia. }
  apply last_Some in Hlast1 as [older Holder].
  exists {| cc_timestamp := now2; cc_query := slice_to 200 q;
            cc_response := slice_to 200 r2;
            cc_similar_previous :=
              similar_count q (consistency_checks m1) |}.
  fold m1. cbn [cc_query cc_response cc_similar_previous].
  split; [|split; [|split]].
  - change (check_consistency now2 q r2 m1)
      with (step m1 (CheckConsistency now2 q r2)).
    rewrite step_consistency_checks, trim_slice_last.
    apply slice_last_snoc. lia.
  - unfold slice_to. apply take_ge. exact Hlen.
  - reflexivity.
  - rewrite Holder, similar_count_snoc.
    subst e1. cbn [cc_query]. unfold slice_to. rewrite take_ge by exact Hlen.
    rewrite similarity_self by exact Hword.
    pose proof (similar_count_nonneg q older) as Hnn.
    replace (PrimFloat.ltb threshold 1) with true
      by (vm_compute; reflexivity).
    lia.
Qed.

End Calls.

(** *** Concrete runs *)

(** At a single retained latency of 2^-12 seconds the rounding shows: the
    reported percentile is 0. *)
Lemma percentiles_rounded_witness :
  latency_history (run (builtins := ascii_builtins) [quick_call]) <> []
  /\ Summary.p95_latency (get_summary (builtins := ascii_builtins) []
                            (run (builtins := ascii_builtins) [quick_call]))
     = 0%float.
Proof.
  assert (latency_history (run (builtins := ascii_builtins) [quick_call]) <> [])
    as Hne by (vm_compute; discriminate).
  split; [exact Hne|].
  destruct (percentiles_rounded (builtins := ascii_builtins) [quick_call] [] zero
              Hne) as ((_ & _ & _ & _ & H95 & _) & _).
  rewrite H95. vm_compute. reflexivity.
Defined.

(** C4 as stated fails: with the single latency 2^-12 retained, the sorted
    sample at index floor(1 * 0.95) = 0 is 2^-12, and [p95_latency] is not
    that value. *)
Lemma percentile_not_the_sorted_entry :
  let m := run (builtins := ascii_builtins) [quick_call] in
  let lats := map lat_latency (latency_history m) in
  sorted PrimFloat.ltb lats !! Z.to_nat (len lats * 95 / 100)
  = Some 0x1p-12%float
  /\ Summary.p95_latency (get_summary (builtins := ascii_builtins) [] m)
     <> 0x1p-12%float.
Proof.
  split; [vm_compute; reflexivity|].
  intros Heq. apply (f_equal Prim2SF) in Heq. vm_compute in Heq.
  discriminate.
Qed.

(** C6 as stated fails: a call with an empty [expected_tools] appends no
    entry to [precision_scores]. *)
Lemma empty_expected_appends_nothing :
  ~ exists entry,
      precision_scores (snd (calculate_precision [] [] [] init))
      = slice_last 50 (precision_scores init ++ [entry]).
Proof. intros [entry Heq]. vm_compute in Heq. discriminate. Qed.

Lemma repeated_query_counted_witness :
  exists e,
    last (consistency_checks
            (check_consistency (builtins := ascii_builtins) [] (lit "Hola") []
               (check_consistency (builtins := ascii_builtins) [] (lit "Hola") []
                  init)))
    = Some e
    /\ 1 <= cc_similar_previous e.
Proof.
  destruct (repeated_query_counted (builtins := ascii_builtins) [] [] (lit "Hola")
              [] [] init) as (e & Hlast & _ & _ & Hge).
  - vm_compute. lia.
  - vm_compute. discriminate.
  - exists e. split; assumption.
Defined.

(** A query longer than 200 characters is compared with its stored
    truncation: here 100 of its 150 words are shared, the similarity is 2/3
    and the second call records a count of 0. *)
Lemma long_query_not_counted :
  length long_query = 299%nat
  /\ ~ exists e,
        last (consistency_checks
                (check_consistency (builtins := ascii_builtins) []
                   long_query []
                   (check_consistency (builtins := ascii_builtins) []
                      long_query [] init)))
        = Some e
        /\ 1 <= cc_similar_previous e.
Proof.
  split; [reflexivity|].
  intros (e & Hlast & Hge). vm_compute in Hlast.
  injection Hlast as <-. simpl in Hge. lia.
Qed.

(** C8 as stated fails: the empty query has no word, its similarity to
    itself is 0.0, and the second call records a count of 0. *)
Lemma empty_query_not_counted :
  ~ exists e,
      last (consistency_checks
              (check_consistency (builtins := ascii_builtins) [] [] []
                 (check_consistency (builtins := ascii_builtins) [] [] [] init)))
      = Some e
      /\ 1 <= cc_similar_previous e.
Proof.
  intros (e & Hlast & Hge). vm_compute in Hlast.
  injection Hlast as <-. simpl in Hge. lia.
Qed.

End ObservabilityFacts.

(** ** The rate limiter *)

Module SecurityFacts.
Import Py Security Spec PyFacts.

Lemma filter_all {A} (P : A -> Prop) `{forall x, Decision (P x)}
    (l : list A) :
  Forall P l -> filter P l = l.
Proof.
  induction 1 as [|x l Hx Hl IH]; [reflexivity|].
  rewrite filter_cons_True by exact Hx. rewrite IH. reflexivity.
Qed.

Lemma filter_none {A} (P : A -> Prop) `{forall x, Decision (P x)}
    (l : list A) :
  Forall (fun x => ~ P x) l -> filter P l = [].
Proof.
  induction 1 as [|x l Hx Hl IH]; [reflexivity|].
  rewrite filter_cons_False by exact Hx. exact IH.
Qed.

Lemma stored_for_log now ty details ip sm ip0 :
  stored_for (log_security_event now ty details ip sm) ip0
  = stored_for sm ip0.
Proof. reflexivity. Qed.

(** The two outcomes of a call with the defaults. *)
Lemma check_default_rejected sm ip now log_now :
  20 <= len (recent_at now (stored_for sm ip)) ->
  fst (check_default sm ip now log_now) = (false, 0)
  /\ stored_for (snd (check_default sm ip now log_now)) ip
     = recent_at now (stored_for sm ip).
Proof.
  intros Hfull. unfold check_default, check_rate_limit.
  fold (stored_for sm ip). fold (recent_at now (stored_for sm ip)).
  apply Z.leb_le in Hfull. rewrite Hfull. cbn [fst snd].
  split; [reflexivity|].
  rewrite stored_for_log. unfold stored_for at 1.
  cbn [rate_limit_storage]. rewrite lookup_insert_eq. reflexivity.
Qed.

Lemma check_default_allowed sm ip now log_now :
  len (recent_at now (stored_for sm ip)) < 20 ->
  fst (check_default sm ip now log_now)
  = (true, 20 - len (recent_at now (stored_for sm ip) ++ [now]) - 1)
  /\ stored_for (snd (check_default sm ip now log_now)) ip
     = recent_at now (stored_for sm ip) ++ [now].
Proof.
  intros Hroom. unfold check_default, check_rate_limit.
  fold (stored_for sm ip). fold (recent_at now (stored_for sm ip)).
  apply Z.leb_gt in Hroom. rewrite Hroom. cbn [fst snd].
  split; [reflexivity|].
  unfold stored_for at 1.
  cbn [rate_limit_storage]. rewrite lookup_insert_eq. reflexivity.
Qed.

Lemma check_default_other sm ip now log_now other :
  other <> ip ->
  stored_for (snd (check_default sm ip now log_now)) other
  = stored_for sm other.
Proof.
  intros Hne. unfold check_default, check_rate_limit.
  destruct (20 <=? _); cbn [fst snd].
  - rewrite stored_for_log. unfold stored_for.
    cbn [rate_limit_storage].
    rewrite lookup_insert_ne by congruence. reflexivity.
  - unfold stored_for. cbn [rate_limit_storage].
    rewrite !lookup_insert_ne by congruence. reflexivity.
Qed.

Lemma recent_at_length now stored :
  (length (recent_at now stored) <= length stored)%nat.
Proof. apply length_filter. Qed.

Lemma check_default_bounded sm ip now log_now :
  (forall c, (length (stored_for sm c) <= 20)%nat) ->
  forall c,
    (length (stored_for (snd (check_default sm ip now log_now)) c) <= 20)%nat.
Proof.
  intros Hinv c. destruct (decide (c = ip)) as [->|Hne].
  - pose proof (recent_at_length now (stored_for sm ip)) as Hlen.
    specialize (Hinv ip).
    destruct (Z.le_gt_cases 20 (len (recent_at now (stored_for sm ip))))
      as [Hfull|Hroom].
    + destruct (check_default_rejected sm ip now log_now Hfull) as (_ & ->).
      lia.
    + destruct (check_default_allowed sm ip now log_now Hroom) as (_ & ->).
      unfold len in Hroom. rewrite length_app. simpl. lia.
  - rewrite check_default_other by exact Hne. apply Hinv.
Qed.

Lemma serve_cons sm r reqs :
  serve sm (r :: reqs)
  = (fst (check_default sm (rq_ip r) (rq_now r) (rq_log_now r))
       :: fst (serve (snd (check_default sm (rq_ip r) (rq_now r)
                             (rq_log_now r))) reqs),
     snd (serve (snd (check_default sm (rq_ip r) (rq_now r) (rq_log_now r)))
            reqs)).
Proof.
  cbn [serve]. destruct (check_default _ _ _ _) as [res sm'].
  cbn [fst snd]. destruct (serve sm' reqs) as [ress sm'']. reflexivity.
Qed.

Lemma serve_bounded reqs sm :
  (forall c, (length (stored_for sm c) <= 20)%nat) ->
  forall c, (length (stored_for (snd (serve sm reqs)) c) <= 20)%nat.
Proof.
  revert sm. induction reqs as [|r reqs IH]; intros sm Hinv c.
  - apply Hinv.
  - rewrite serve_cons. simpl. apply IH, check_default_bounded, Hinv.
Qed.

(** C10. After every sequence of calls with the defaults on a fresh
    manager, whatever the clients and the clock readings, no client has more
    than 20 timestamps stored.  A call that returns [(False, 0)] leaves for
    its client exactly the stored timestamps that are newer than the window,
    in their order: none is appended, so the list does not grow and the
    rejected request is not counted; the lists of the other clients are
    untouched. *)
Theorem stored_timestamps_bounded (reqs : list request) (c : pystr)
    (sm : SecurityManager) (ip : pystr) (now : Z) (log_now : pystr)
    (other : pystr) :
  (length (stored_for (snd (serve new_manager reqs)) c) <= 20)%nat
  /\ (fst (check_default sm ip now log_now) = (false, 0) ->
      let sm' := snd (check_default sm ip now log_now) in
      stored_for sm' ip = recent_at now (stored_for sm ip)
      /\ stored_for sm' ip `sublist_of` stored_for sm ip
      /\ (length (stored_for sm' ip) <= length (stored_for sm ip))%nat
      /\ (other <> ip -> stored_for sm' other = stored_for sm other)).
Proof.
  split.
  - apply serve_bounded. intros c'. unfold stored_for, new_manager. simpl.
    rewrite lookup_empty. simpl. lia.
  - intros Hrej sm'.
    destruct (Z.le_gt_cases 20 (len (recent_at now (stored_for sm ip))))
      as [Hfull|Hroom].
    + destruct (check_default_rejected sm ip now log_now Hfull) as (_ & Hst).
      subst sm'. rewrite Hst. repeat split.
      * apply sublist_filter.
      * apply recent_at_length.
      * intros Hne. apply check_default_other, Hne.
    + destruct (check_default_allowed sm ip now log_now Hroom) as (Hres & _).
      rewrite Hres in Hrej. discriminate.
Qed.

Lemma stored_timestamps_bounded_witness :
  let clock := map Z.of_nat (seq 0 20) in
  let sm := snd (serve new_manager (requests_of (lit "10.0.0.1") clock)) in
  fst (check_default sm (lit "10.0.0.1") 20 []) = (false, 0)
  /\ stored_for (snd (check_default sm (lit "10.0.0.1") 20 []))
       (lit "10.0.0.1")
     = clock.
Proof.
  intros clock sm.
  assert (fst (check_default sm (lit "10.0.0.1") 20 []) = (false, 0))
    as Hrej by (vm_compute; reflexivity).
  split; [exact Hrej|].
  destruct (stored_timestamps_bounded [] [] sm (lit "10.0.0.1") 20 [] []) as (_ & Hcall).
  destruct (Hcall Hrej) as (Hst & _).
  rewrite Hst. vm_compute. reflexivity.
Defined.

(** *** Calls of one client within one window *)

Lemma serve_app sm reqs1 reqs2 :
  serve sm (reqs1 ++ reqs2)
  = (fst (serve sm reqs1) ++ fst (serve (snd (serve sm reqs1)) reqs2),
     snd (serve (snd (serve sm reqs1)) reqs2)).
Proof.
  revert sm. induction reqs1 as [|r reqs1 IH]; intros sm.
  - simpl. destruct (serve sm reqs2). reflexivity.
  - rewrite <- app_comm_cons, !serve_cons, IH. reflexivity.
Qed.

Lemma recent_at_in_window t0 now stored :
  t0 <= now < t0 + timedelta_seconds 60 ->
  in_one_window t0 stored ->
  recent_at now stored = stored.
Proof.
  intros Hnow Hwin. apply filter_all.
  eapply Forall_impl; [exact Hwin|]. simpl. intros a Ha. lia.
Qed.

Lemma recent_at_aged now stored :
  all_aged now stored -> recent_at now stored = [].
Proof.
  intros Haged. apply filter_none.
  eapply Forall_impl; [exact Haged|]. simpl. intros a Ha. lia.
Qed.

Lemma serve_in_window ip t0 clock :
  forall sm,
    in_one_window t0 (stored_for sm ip ++ clock) ->
    (length (stored_for sm ip) + length clock <= 20)%nat ->
    fst (serve sm (requests_of ip clock))
    = map (fun k => (true, 18 - Z.of_nat (length (stored_for sm ip) + k)))
          (seq 0 (length clock))
    /\ stored_for (snd (serve sm (requests_of ip clock))) ip
       = stored_for sm ip ++ clock.
Proof.
  induction clock as [|t clock IH]; intros sm Hwin Hlen.
  - simpl. rewrite app_nil_r. split; reflexivity.
  - unfold in_one_window in Hwin.
    apply Forall_app in Hwin as (Hstored & Hclock).
    apply Forall_cons in Hclock as (Ht & Hclock).
    pose proof (recent_at_in_window t0 t (stored_for sm ip) Ht Hstored)
      as Hrecent.
    simpl in Hlen.
    destruct (check_default_allowed sm ip t []) as (Hres & Hst).
    { rewrite Hrecent. unfold len. lia. }
    rewrite Hrecent in Hres, Hst.
    change (requests_of ip (t :: clock))
      with ({| rq_ip := ip; rq_now := t; rq_log_now := [] |}
              :: requests_of ip clock).
    rewrite serve_cons. cbn [fst snd rq_ip rq_now rq_log_now].
    destruct (IH (snd (check_default sm ip t []))) as (IHres & IHst).
    { rewrite Hst, <- app_assoc. apply Forall_app. split; [exact Hstored|].
      apply Forall_cons. split; assumption. }
    { rewrite Hst, length_app. simpl. lia. }
    rewrite IHres, IHst, Hres, Hst, <- app_assoc.
    split; [|reflexivity].
    cbn [length seq map]. f_equal.
    + f_equal. unfold len. rewrite length_app. simpl. lia.
    + rewrite <- seq_shift, map_map. apply map_ext. intros k.
      rewrite length_app. simpl. f_equal. lia.
Qed.

(** C3, as the code has it.  On a fresh manager, 20 calls of one client
    whose clock readings lie in one window of 60 seconds are all allowed,
    with [remaining] equal to 18, 17, ..., 0, -1 in that order: the
    count read after the append includes the new timestamp.  A 21st call in
    the window returns [(False, 0)], and a call made once the 20 stored
    timestamps are 60 seconds old is allowed again, with [remaining] 18. *)
Theorem rate_limit_one_window (ip : pystr) (t0 : Z) (clock : list Z)
    (t21 later : Z)
    (Hlen : length clock = 20%nat)
    (Hwin : in_one_window t0 (clock ++ [t21]))
    (Haged : all_aged later clock) :
  fst (serve new_manager (requests_of ip (clock ++ [t21; later])))
  = map (fun k => (true, 18 - Z.of_nat k)) (seq 0 20)
    ++ [(false, 0); (true, 18)].
Proof.
  unfold in_one_window in Hwin. apply Forall_app in Hwin as (Hclock & H21).
  apply Forall_cons in H21 as (H21 & _).
  assert (stored_for new_manager ip = []) as Hfresh.
  { unfold stored_for, new_manager. cbn [rate_limit_storage].
    rewrite lookup_empty. reflexivity. }
  destruct (serve_in_window ip t0 clock new_manager) as (Hres & Hst).
  { rewrite Hfresh. exact Hclock. }
  { rewrite Hfresh. simpl. lia. }
  rewrite Hfresh in Hres, Hst. simpl in Hst.
  unfold requests_of. rewrite map_app. fold (requests_of ip clock).
  rewrite serve_app, Hres, Hlen. cbn [fst]. f_equal.
  set (sm := snd (serve new_manager (requests_of ip clock))) in *.
  cbn [map]. rewrite !serve_cons. cbn [fst snd rq_ip rq_now rq_log_now serve].
  destruct (check_default_rejected sm ip t21 []) as (Hrej & Hst21).
  { rewrite Hst, (recent_at_in_window t0) by assumption.
    unfold len. lia. }
  rewrite Hst, (recent_at_in_window t0) in Hst21 by assumption.
  rewrite Hrej. f_equal.
  destruct (check_default_allowed (snd (check_default sm ip t21 [])) ip
              later []) as (Hok & _).
  { rewrite Hst21, recent_at_aged by exact Haged. reflexivity. }
  rewrite Hst21, recent_at_aged in Hok by exact Haged.
  rewrite Hok. reflexivity.
Qed.

Lemma rate_limit_one_window_witness :
  fst (serve new_manager
         (requests_of (lit "10.0.0.1")
            (map Z.of_nat (seq 0 20) ++ [20; 70000000])))
  = map (fun k => (true, 18 - Z.of_nat k)) (seq 0 20)
    ++ [(false, 0); (true, 18)].
Proof.
  apply (rate_limit_one_window (lit "10.0.0.1") 0
           (map Z.of_nat (seq 0 20)) 20 70000000).
  - reflexivity.
  - unfold in_one_window. apply Forall_forall. intros t Ht.
    apply list_elem_of_In in Ht. vm_compute in Ht.
    repeat (destruct Ht as [<-|Ht]; [vm_compute; split; congruence|]).
    destruct Ht.
  - unfold all_aged. apply Forall_forall. intros t Ht.
    apply list_elem_of_In in Ht. vm_compute in Ht.
    repeat (destruct Ht as [<-|Ht]; [vm_compute; congruence|]).
    destruct Ht.
Defined.

(** The first call of a client returns 18 and the 20th returns -1, where
    19 and 0 requests remain. *)
Lemma remaining_counts_the_new_request :
  fst (check_default new_manager (lit "10.0.0.1") 0 []) = (true, 18)
  /\ last (fst (serve new_manager
                  (requests_of (lit "10.0.0.1") (map Z.of_nat (seq 0 20)))))
     = Some (true, -1).
Proof. split; vm_compute; reflexivity. Qed.

End SecurityFacts.

(** ** AgentMetrics: the histories as windows on complete logs *)

Module LogFacts.
Import Py Observability Spec Logs PyFacts ObservabilityFacts.

Lemma slice_last_app_ge {A} (cap : nat) (l k : list A) :
  (cap <= length k)%nat -> slice_last cap (l ++ k) = slice_last cap k.
Proof.
  intros Hle. unfold slice_last. rewrite length_app.
  rewrite drop_app_ge by lia. f_equal. lia.
Qed.

(** Cutting to the last [cap] entries before an append changes nothing
    once the result is cut to [cap] again. *)
Lemma slice_last_app_slice {A} (cap : nat) (l k : list A) :
  slice_last cap (slice_last cap l ++ k) = slice_last cap (l ++ k).
Proof.
  destruct (decide (length l <= cap)%nat) as [Hshort|Hlong].
  - rewrite (slice_last_short cap l) by exact Hshort. reflexivity.
  - rewrite <- (take_drop (length l - cap) l) at 2.
    fold (slice_last cap l). rewrite <- app_assoc.
    symmetry. apply slice_last_app_ge.
    rewrite length_app, slice_last_length. lia.
Qed.

Lemma slice_last_nested {A} (a b : nat) (l : list A) :
  (a <= b)%nat -> slice_last a (slice_last b l) = slice_last a l.
Proof.
  intros Hab. unfold slice_last at 1 3.
  rewrite slice_last_length. unfold slice_last. rewrite drop_drop.
  f_equal. lia.
Qed.

Lemma trim_window {A} (cap : nat) (log : list A) (new : list A) :
  (length new <= 1)%nat ->
  match new with
  | [] => slice_last cap log
  | x :: _ => trim cap (slice_last cap log ++ [x])
  end = slice_last cap (log ++ new).
Proof.
  destruct new as [|x [|y new]]; simpl; intros Hlen; try lia.
  - rewrite app_nil_r. reflexivity.
  - rewrite trim_slice_last. apply slice_last_app_slice.
Qed.

Section Windows.
Context {builtins : Builtins}.

Lemma flat_map_snoc {A B} (f : A -> list B) (l : list A) (x : A) :
  flat_map f (l ++ [x]) = flat_map f l ++ f x.
Proof. rewrite flat_map_app. simpl. rewrite app_nil_r. reflexivity. Qed.

Lemma run_windows (calls : list call) :
  latency_history (run calls)
  = slice_last 100 (flat_map latency_entries_of calls)
  /\ precision_scores (run calls)
     = slice_last 50 (flat_map precision_entries_of calls)
  /\ resource_usage (run calls)
     = slice_last 50 (flat_map resource_entries_of calls)
  /\ execution_traces (run calls)
     = slice_last 50 (flat_map trace_entries_of calls)
  /\ errors (run calls) = flat_map error_entries_of calls.
Proof.
  induction calls as [|c calls (IHl & IHp & IHr & IHt & IHe)] using rev_ind.
  - repeat split.
  - rewrite run_snoc, step_latency_history, step_precision_scores,
      step_resource_usage, step_execution_traces, step_errors,
      !flat_map_snoc, IHl, IHp, IHr, IHt, IHe.
    destruct c as [ts [r|] [|] lat tools err req| | now [|e es] act |];
      cbn [latency_entries_of precision_entries_of resource_entries_of
           trace_entries_of error_entries_of];
      rewrite ?app_nil_r, ?trim_slice_last, ?slice_last_app_slice;
      repeat split.
Qed.

(** X1. After every sequence of calls, each of [latency_history],
    [precision_scores], [resource_usage] and [execution_traces] is the
    last 100, 50, 50 and 50 entries of the complete sequence of entries
    ever appended to it, in the order of the calls: the complete sequence
    is what was dropped followed by what is retained, and nothing is
    dropped before the capacity is reached.  [errors] is the complete
    sequence of error records. *)
Theorem histories_are_windows (calls : list call) :
  let all_latencies := flat_map latency_entries_of calls in
  let all_scores := flat_map precision_entries_of calls in
  let all_samples := flat_map resource_entries_of calls in
  let all_traces := flat_map trace_entries_of calls in
  (latency_history (run calls) = slice_last 100 all_latencies
   /\ all_latencies
      = take (length all_latencies - 100) all_latencies
        ++ latency_history (run calls))
  /\ (precision_scores (run calls) = slice_last 50 all_scores
      /\ all_scores
         = take (length all_scores - 50) all_scores
           ++ precision_scores (run calls))
  /\ (resource_usage (run calls) = slice_last 50 all_samples
      /\ all_samples
         = take (length all_samples - 50) all_samples
           ++ resource_usage (run calls))
  /\ (execution_traces (run calls) = slice_last 50 all_traces
      /\ all_traces
         = take (length all_traces - 50) all_traces
           ++ execution_traces (run calls))
  /\ errors (run calls) = flat_map error_entries_of calls.
Proof.
  destruct (run_windows calls) as (Hl & Hp & Hr & Ht & He).
  cbv zeta. rewrite Hl, Hp, Hr, Ht, He. unfold slice_last.
  rewrite !take_drop. repeat split.
Qed.

(** X2. The lists shown by [get_summary] are the most recent entries ever
    recorded: the last 30 latency entries, the last 20 precision scores,
    the last 20 resource samples, the last 10 traces and the last 10 error
    records of the complete sequences, whatever was trimmed in between. *)
Theorem summary_shows_latest (calls : list call) (now : pystr) :
  let s := get_summary now (run calls) in
  Summary.latency_history s
  = slice_last 30 (flat_map latency_entries_of calls)
  /\ Summary.precision_history s
     = slice_last 20 (flat_map precision_entries_of calls)
  /\ Summary.resource_usage s
     = slice_last 20 (flat_map resource_entries_of calls)
  /\ Summary.execution_traces s
     = slice_last 10 (flat_map trace_entries_of calls)
  /\ Summary.recent_errors s
     = slice_last 10 (flat_map error_entries_of calls).
Proof.
  destruct (run_windows calls) as (Hl & Hp & Hr & Ht & He).
  unfold get_summary, build_summary.
  cbn [Summary.latency_history Summary.precision_history
       Summary.resource_usage Summary.execution_traces
       Summary.recent_errors].
  rewrite Hl, Hp, Hr, Ht, He.
  rewrite !slice_last_nested by lia. repeat split.
Qed.

(** *** Stored texts and counts *)

Lemma Forall_trim_snoc {A} (P : A -> Prop) (cap : nat) (l : list A) (x : A) :
  Forall P l -> P x -> Forall P (trim cap (l ++ [x])).
Proof.
  intros Hl Hx. rewrite trim_slice_last. unfold slice_last.
  apply Forall_drop, Forall_app. split; [exact Hl|]. constructor; auto.
Qed.

Lemma slice_to_length {A} (k : nat) (l : list A) :
  (length (slice_to k l) <= k)%nat.
Proof. unfold slice_to. rewrite length_take. lia. Qed.

(** X3. In every state reached by calls, the request text kept with an
    error has at most 200 characters, the request and response kept with a
    trace at most 300 and 500, and the query and response kept with a
    consistency check at most 200 each. *)
Theorem stored_texts_capped (calls : list call) :
  Forall (fun e => (length (err_request e) <= 200)%nat) (errors (run calls))
  /\ Forall (fun t => (length (tr_request t) <= 300)%nat
                      /\ (length (tr_response t) <= 500)%nat)
       (execution_traces (run calls))
  /\ Forall (fun c => (length (cc_query c) <= 200)%nat
                      /\ (length (cc_response c) <= 200)%nat)
       (consistency_checks (run calls)).
Proof.
  induction calls as [|c calls (IHe & IHt & IHc)] using rev_ind.
  - repeat split; constructor.
  - rewrite run_snoc, step_errors, step_execution_traces,
      step_consistency_checks.
    destruct c as [ts rd [|] lat tools err req| | |]; repeat split;
      try assumption.
    + apply Forall_app. split; [exact IHe|]. constructor; [|constructor].
      apply slice_to_length.
    + apply Forall_trim_snoc; [exact IHt|].
      split; apply slice_to_length.
    + apply Forall_trim_snoc; [exact IHc|].
      split; apply slice_to_length.
Qed.

Lemma similar_count_le (q : pystr) (checks : list consistency_entry) :
  similar_count q checks <= len checks.
Proof.
  induction checks as [|x checks IH] using rev_ind; [reflexivity|].
  rewrite similar_count_snoc. unfold len in *. rewrite length_app. simpl.
  destruct (PrimFloat.ltb _ _); lia.
Qed.

(** X4. In every state reached by calls, the [similar_previous] count of
    every stored consistency check lies between 0 and 30: the count is
    taken over the retained checks only, of which there are at most 30. *)
Theorem similar_previous_range (calls : list call) :
  Forall (fun c => 0 <= cc_similar_previous c <= 30)
    (consistency_checks (run calls)).
Proof.
  induction calls as [|c calls IH] using rev_ind; [constructor|].
  rewrite run_snoc, step_consistency_checks.
  destruct c as [| | |now q r]; try exact IH.
  apply Forall_trim_snoc; [exact IH|]. cbn [cc_similar_previous].
  pose proof (similar_count_nonneg q (consistency_checks (run calls))).
  pose proof (similar_count_le q (consistency_checks (run calls))).
  destruct (run_within_capacity calls) as (_ & _ & _ & _ & Hcap).
  unfold len in *. lia.
Qed.

(** *** Tool counters *)

Lemma bump_lookup (tc : gmap pystr Z) (tool t : pystr) :
  default 0 (bump tc tool !! t)
  = default 0 (tc !! t) + (if decide (tool = t) then 1 else 0).
Proof.
  unfold bump. destruct (decide (tool = t)) as [->|Hne].
  - rewrite lookup_insert_eq. reflexivity.
  - rewrite lookup_insert_ne by exact Hne. lia.
Qed.

Lemma fold_bump_lookup (tools : list pystr) (tc : gmap pystr Z) (t : pystr) :
  default 0 (fold_left bump tools tc !! t)
  = default 0 (tc !! t) + occurrences t tools.
Proof.
  revert tc. induction tools as [|tool tools IH]; intros tc; simpl.
  - unfold occurrences, len. simpl. lia.
  - rewrite IH, bump_lookup. unfold occurrences, len.
    rewrite filter_cons. destruct (decide (tool = t)); simpl; lia.
Qed.

Lemma fold_bump_dom (tools : list pystr) (tc : gmap pystr Z) (t : pystr) :
  is_Some (fold_left bump tools tc !! t) <-> is_Some (tc !! t) \/ t ∈ tools.
Proof.
  revert tc. induction tools as [|tool tools IH]; intros tc; simpl.
  - split; [auto|]. intros [?|Hin]; [assumption|]. inversion Hin.
  - rewrite IH. unfold bump. rewrite elem_of_cons.
    destruct (decide (tool = t)) as [->|Hne].
    + rewrite lookup_insert_eq. split; [auto|]. intros _. left. eauto.
    + rewrite lookup_insert_ne by exact Hne.
      split; [tauto|]. intros [?|[?|?]]; [tauto|congruence|tauto].
Qed.

(** The sum of the counters, as [get_summary] computes it. *)
Lemma total_insert (tc : gmap pystr Z) (t : pystr) (v : Z) :
  map_fold (fun _ v acc => acc + v) 0 (<[t := v]> tc)
  = map_fold (fun _ v acc => acc + v) 0 tc - default 0 (tc !! t) + v.
Proof.
  assert (forall (m : gmap pystr Z) j1 j2 z1 z2 (y : Z),
            j1 <> j2 -> m !! j1 = Some z1 -> m !! j2 = Some z2 ->
            y + z2 + z1 = y + z1 + z2) as Hcomm by (intros; lia).
  destruct (tc !! t) as [old|] eqn:Hold; simpl.
  - rewrite <- (insert_delete_eq tc t v).
    rewrite (map_fold_insert_L _ _ _ _ (delete t tc));
      [|intros; lia|apply lookup_delete_eq].
    rewrite (map_fold_delete_L _ _ t old tc); [lia|intros; lia|exact Hold].
  - rewrite (map_fold_insert_L _ _ _ _ tc); [lia|intros; lia|exact Hold].
Qed.

Lemma total_bump (tc : gmap pystr Z) (tool : pystr) :
  map_fold (fun _ v acc => acc + v) 0 (bump tc tool)
  = map_fold (fun _ v acc => acc + v) 0 tc + 1.
Proof. unfold bump. rewrite total_insert. lia. Qed.

Lemma total_fold_bump (tools : list pystr) (tc : gmap pystr Z) :
  map_fold (fun _ v acc => acc + v) 0 (fold_left bump tools tc)
  = map_fold (fun _ v acc => acc + v) 0 tc + len tools.
Proof.
  revert tc. induction tools as [|tool tools IH]; intros tc; simpl.
  - unfold len. simpl. lia.
  - rewrite IH, total_bump. unfold len. simpl. lia.
Qed.

Lemma step_tool_calls (m : metrics) (c : call) :
  tool_calls (step m c) = fold_left bump (tools_of c) (tool_calls m).
Proof.
  destruct c as [ts [r|] [|] lat tools err req| | now [|e es] act |];
    reflexivity.
Qed.

Lemma run_tool_calls (calls : list call) :
  tool_calls (run calls)
  = fold_left bump (flat_map tools_of calls) ∅.
Proof.
  induction calls as [|c calls IH] using rev_ind; [reflexivity|].
  rewrite run_snoc, step_tool_calls, IH, flat_map_snoc, fold_left_app.
  reflexivity.
Qed.

(** X5. After every sequence of calls, [tool_usage] in the summary maps a
    tool to the number of times its name was passed to [record_request]
    (a name repeated in one [tools_used] list counts each time), it has an
    entry exactly for the names that were passed, and [total_tool_calls]
    is the total number of names passed. *)
Theorem tool_usage_counts (calls : list call) (now : pystr) (tool : pystr) :
  let s := get_summary now (run calls) in
  let passed := flat_map tools_of calls in
  default 0 (Summary.tool_usage s !! tool) = occurrences tool passed
  /\ (is_Some (Summary.tool_usage s !! tool) <-> tool ∈ passed)
  /\ Summary.total_tool_calls s = len passed.
Proof.
  unfold get_summary, build_summary.
  cbn [Summary.tool_usage Summary.total_tool_calls].
  rewrite run_tool_calls. split; [|split].
  - rewrite fold_bump_lookup, lookup_empty. simpl. lia.
  - rewrite fold_bump_dom, lookup_empty. split.
    + intros [[x Hx]|Hin]; [discriminate | exact Hin].
    + auto.
  - rewrite total_fold_bump, map_fold_empty. lia.
Qed.

End Windows.

End LogFacts.

(** ** Threads: no summary of a half-recorded request *)

Module ConcurrentFacts.
Import Py Observability Spec Logs Concurrent PyFacts ObservabilityFacts
  LogFacts.

Section Interleavings.
Context {builtins : Builtins}.






(** *** Orders of calls *)





(** *** Where a thread stands, from its next action *)








(** *** The steps keep the invariant *)










(** The state in the middle of [record_request], after the count and before
    the append, is the state after no sequence of whole calls. *)
Lemma half_recorded_state_not_whole :
  ~ exists calls, exec [rr_count] init = run calls.
Proof.
  intros (calls & Heq).
  destruct (run_counters calls) as (Ht & _).
  pose proof (run_latency_length calls) as Hlen.
  rewrite <- Heq in Ht, Hlen. simpl in Ht, Hlen. lia.
Qed.

(** An order that takes calls from the first thread only is the initial
    part of the calls of that thread. *)
Lemma linearization_single (w : list invocation)
    (others : list (list invocation)) (order : list (nat * call)) :
  Forall (fun w' => mutations w' = []) others ->
  linearization (w :: others) order ->
  calls_of order `prefix_of` mutations w.
Proof.
  intros Hothers Hlin.
  assert (Forall (fun p => fst p = 0%nat) order) as Hzero.
  { apply Forall_forall. intros [j c] Hin. cbn [fst].
    destruct j as [|j]; [reflexivity|]. exfalso.
    assert (c ∈ calls_by (S j) order) as Hc.
    { unfold calls_by. apply list_elem_of_fmap. exists (S j, c).
      split; [reflexivity|]. apply list_elem_of_filter. auto. }
    assert (mutations (default [] ((w :: others) !! S j)) = []) as Hnil.
    { cbn [lookup list_lookup]. destruct (others !! j) as [w'|] eqn:Hj.
      - rewrite Forall_forall in Hothers. apply Hothers.
        eapply list_elem_of_lookup_2, Hj.
      - reflexivity. }
    pose proof (Hlin (S j)) as Hpre. rewrite Hnil in Hpre.
    apply prefix_nil_inv in Hpre. rewrite Hpre in Hc.
    exact (not_elem_of_nil _ Hc). }
  pose proof (Hlin 0%nat) as Hpre. unfold calls_by in Hpre.
  rewrite (SecurityFacts.filter_all _ order Hzero) in Hpre. exact Hpre.
Qed.

End Interleavings.



(** One thread records the 100 requests of the sample and then a 101st.
    The summary of the state in the middle of the 101st call, after the
    counters and before the append, shows 101 requests and the latency of
    the 100th as the newest: it is the summary of no whole calls of the
    thread. *)
Lemma half_recorded_summary_excluded :
  Summary.total_requests torn_summary = 101
  /\ ~ whole_state_summary (builtins := ascii_builtins) torn_work
        torn_summary.
Proof.
  split; [vm_compute; reflexivity|].
  intros (order & now & Hlin & Heq).
  apply linearization_single in Hlin;
    [|repeat constructor].
  assert (calls_of order = sample_calls ++ [quick_call]) as Hall.
  { pose proof (f_equal Summary.total_requests Heq) as Htotal.
    unfold get_summary, build_summary in Htotal.
    cbn [Summary.total_requests] in Htotal.
    destruct (run_counters (builtins := ascii_builtins) (calls_of order))
      as (Ht & _).
    rewrite Ht in Htotal.
    assert (Summary.total_requests torn_summary = 101) as H101
      by (vm_compute; reflexivity).
    rewrite H101 in Htotal.
    assert (mutations (map Mutate (sample_calls ++ [quick_call]))
            = sample_calls ++ [quick_call]) as Hmut
      by (vm_compute; reflexivity).
    rewrite Hmut in Hlin.
    apply prefix_length_eq; [exact Hlin|].
    unfold requests_in, len in Htotal.
    pose proof (List.filter_length_le is_record_request (calls_of order))
      as Hle.
    change (length (sample_calls ++ [quick_call])) with 101%nat. lia. }
  rewrite Hall in Heq.
  pose proof (f_equal Summary.latency_history Heq) as Hlat.
  unfold get_summary, build_summary in Hlat.
  cbn [Summary.latency_history] in Hlat.
  vm_compute in Hlat. discriminate.
Qed.

End ConcurrentFacts.

(** ** invoke_agent_with_metrics: what reaches the metrics *)

Module AgentFacts.
Import Py Observability Spec Logs Agent PyFacts ObservabilityFacts LogFacts.

(** *** The tools of a response *)

Lemma note_tool_prefix (tools : list pystr) (name : pystr) :
  tools `prefix_of` note_tool tools name.
Proof.
  unfold note_tool. destruct (_ && _); [|reflexivity].
  apply prefix_app_r. reflexivity.
Qed.

Lemma note_tool_elem (tools : list pystr) (name x : pystr) :
  x ∈ note_tool tools name <-> x ∈ tools \/ (x = name /\ name <> []).
Proof.
  unfold note_tool.
  destruct (decide (name <> [])) as [Hne|He];
    destruct (decide (name ∉ tools)) as [Hnew|Hold];
    rewrite ?(bool_decide_eq_true_2 _ Hne), ?(bool_decide_eq_false_2 _ He),
      ?(bool_decide_eq_true_2 _ Hnew), ?(bool_decide_eq_false_2 _ Hold);
    cbn [andb].
  - rewrite elem_of_app, list_elem_of_singleton. tauto.
  - apply dec_stable in Hold. split; [tauto|].
    intros [?|[-> _]]; assumption.
  - split; [tauto|]. intros [?|[_ ?]]; [assumption|contradiction].
  - split; [tauto|]. intros [?|[_ ?]]; [assumption|contradiction].
Qed.

Lemma note_tool_clean (tools : list pystr) (name : pystr) :
  NoDup tools /\ [] ∉ tools ->
  NoDup (note_tool tools name) /\ [] ∉ note_tool tools name.
Proof.
  intros (Hnd & Hne). split.
  - unfold note_tool.
    destruct (decide (name <> [])) as [Hn|Hn];
      destruct (decide (name ∉ tools)) as [Hnew|Hold];
      rewrite ?(bool_decide_eq_true_2 _ Hn), ?(bool_decide_eq_false_2 _ Hn),
        ?(bool_decide_eq_true_2 _ Hnew), ?(bool_decide_eq_false_2 _ Hold);
      cbn [andb]; try exact Hnd.
    apply NoDup_app. split; [exact Hnd|]. split; [|apply NoDup_singleton].
    intros x Hx Hx'. apply list_elem_of_singleton in Hx'. subst.
    contradiction.
  - rewrite note_tool_elem. intros [?|[<- ?]]; [contradiction|congruence].
Qed.

Lemma fold_note_tool (names tools : list pystr) :
  NoDup tools /\ [] ∉ tools ->
  (NoDup (fold_left note_tool names tools)
   /\ [] ∉ fold_left note_tool names tools)
  /\ tools `prefix_of` fold_left note_tool names tools
  /\ forall x, x ∈ fold_left note_tool names tools
               <-> x ∈ tools \/ (x ∈ names /\ x <> []).
Proof.
  revert tools. induction names as [|name names IH]; intros tools Hclean;
    simpl.
  - split; [exact Hclean|]. split; [reflexivity|].
    intros x. rewrite elem_of_nil. tauto.
  - destruct (IH _ (note_tool_clean tools name Hclean)) as (Hc & Hp & Hin).
    split; [exact Hc|]. split.
    + etransitivity; [apply note_tool_prefix | exact Hp].
    + intros x. rewrite Hin, note_tool_elem, elem_of_cons.
      split; [|intros [?|[[->|?] ?]]; tauto].
      intros [[?|[-> ?]]|[? ?]]; tauto.
Qed.

Lemma collect_tools_from (messages : list message) (tools : list pystr) :
  NoDup tools /\ [] ∉ tools ->
  let result :=
    fold_left (fun tools_used msg =>
                 fold_left note_tool (msg_tool_calls msg) tools_used)
              messages tools in
  (NoDup result /\ [] ∉ result)
  /\ tools `prefix_of` result
  /\ forall x, x ∈ result
               <-> x ∈ tools
                   \/ (x <> [] /\ exists msg, msg ∈ messages
                                              /\ x ∈ msg_tool_calls msg).
Proof.
  revert tools. induction messages as [|msg messages IH];
    intros tools Hclean; simpl.
  - split; [exact Hclean|]. split; [reflexivity|].
    intros x. split; [tauto|]. intros [?|(_ & m & Hm & _)]; [assumption|].
    inversion Hm.
  - destruct (fold_note_tool (msg_tool_calls msg) tools Hclean)
      as (Hc & Hp & Hin).
    destruct (IH _ Hc) as (Hc' & Hp' & Hin').
    split; [exact Hc'|]. split; [etransitivity; eassumption|].
    intros x. rewrite Hin', Hin. split.
    + intros [[?|[? ?]]|(Hne & m & Hm & Hx)].
      * tauto.
      * right. split; [assumption|]. exists msg.
        split; [apply list_elem_of_here | assumption].
      * right. split; [assumption|]. exists m.
        split; [apply list_elem_of_further, Hm | assumption].
    + intros [?|(Hne & m & Hm & Hx)]; [tauto|].
      apply elem_of_cons in Hm as [->|Hm]; [tauto|].
      right. split; [assumption|]. eauto.
Qed.

(** X6. The tool names collected from a response hold no name twice and
    no empty name; a name is collected exactly when it is not empty and
    some message carries a tool call of that name; and the names collected
    from the first messages stay, in their order, at the front of what is
    collected from a longer response. *)
Theorem collect_tools_distinct (messages more : list message) (x : pystr) :
  NoDup (collect_tools messages)
  /\ ([] ∉ collect_tools messages)
  /\ (x ∈ collect_tools messages
      <-> x <> [] /\ exists msg, msg ∈ messages /\ x ∈ msg_tool_calls msg)
  /\ collect_tools messages `prefix_of` collect_tools (messages ++ more).
Proof.
  assert (NoDup ([] : list pystr) /\ [] ∉ ([] : list pystr)) as Hnil.
  { split; [constructor | apply not_elem_of_nil]. }
  destruct (collect_tools_from messages [] Hnil) as ((Hnd & Hne) & _ & Hin).
  split; [exact Hnd|]. split; [exact Hne|]. split.
  - unfold collect_tools. rewrite Hin, elem_of_nil. tauto.
  - unfold collect_tools. rewrite fold_left_app.
    apply (collect_tools_from more (collect_tools messages)).
    split; assumption.
Qed.

(** *** Sequences of invocations *)

Section Turns.
Context {builtins : Builtins}.
Variable agent : list message -> agent_outcome.

Lemma invoke_metrics (t : turn) (m : metrics) :
  snd (invoke_agent_with_metrics true agent (tn_readings t) (tn_message t)
         (tn_history t) m)
  = fold_left step (turn_calls agent t) m.
Proof.
  unfold invoke_agent_with_metrics, turn_calls, metric_calls. cbn [snd].
  destruct (success (try_agent agent (tn_message t) (tn_history t)));
    reflexivity.
Qed.

Lemma after_turns_run (turns : list turn) :
  after_turns agent turns = run (calls_of_turns agent turns).
Proof.
  unfold after_turns, run, calls_of_turns. generalize init.
  induction turns as [|t turns IH]; intros m; cbn [fold_left flat_map];
    [reflexivity|].
  rewrite fold_left_app, IH, invoke_metrics. reflexivity.
Qed.

Lemma try_agent_failure_tools (msg : pystr) (h : option (list message)) :
  success (try_agent agent msg h) = false ->
  tools_used (try_agent agent msg h) = [].
Proof.
  unfold try_agent. destruct (agent _) as [resp|err]; [|reflexivity].
  destruct (last resp); [discriminate | reflexivity].
Qed.

Lemma try_agent_tools_distinct (msg : pystr) (h : option (list message)) :
  NoDup (tools_used (try_agent agent msg h)).
Proof.
  unfold try_agent. destruct (agent _) as [resp|err]; [|constructor].
  destruct (last resp); [|constructor].
  apply (collect_tools_from resp []). split; [constructor|].
  apply not_elem_of_nil.
Qed.

Lemma occurrences_app (x : pystr) (l k : list pystr) :
  occurrences x (l ++ k) = occurrences x l + occurrences x k.
Proof.
  unfold occurrences, len. rewrite filter_app, length_app. lia.
Qed.

Lemma occurrences_NoDup (x : pystr) (l : list pystr) :
  NoDup l -> 0 <= occurrences x l <= 1.
Proof.
  unfold occurrences, len. induction 1 as [|y l Hy Hnd IH]; simpl; [lia|].
  rewrite filter_cons. destruct (decide (y = x)) as [->|Hne]; [|lia].
  simpl. assert (filter (fun t => t = x) l = []) as ->; [|simpl; lia].
  apply SecurityFacts.filter_none, Forall_forall.
  intros z Hz ->. contradiction.
Qed.

Lemma counts_app (calls1 calls2 : list call) :
  requests_in (calls1 ++ calls2) = requests_in calls1 + requests_in calls2
  /\ failures_in (calls1 ++ calls2)
     = failures_in calls1 + failures_in calls2.
Proof.
  unfold requests_in, failures_in, len.
  rewrite !List.filter_app, !length_app. lia.
Qed.

(** What one turn contributes. *)
Lemma turn_contribution (t : turn) (tool : pystr) :
  requests_in (turn_calls agent t) = 1
  /\ failures_in (turn_calls agent t)
     = (if turn_succeeds agent t then 0 else 1)
  /\ 0 <= occurrences tool (flat_map tools_of (turn_calls agent t))
     <= (if turn_succeeds agent t then 1 else 0)
  /\ length (flat_map trace_entries_of (turn_calls agent t))
     = (if turn_succeeds agent t then 1 else 0)%nat
  /\ length (List.filter is_check (turn_calls agent t))
     = (if turn_succeeds agent t then 1 else 0)%nat.
Proof.
  unfold turn_calls, turn_succeeds, metric_calls.
  pose proof (try_agent_tools_distinct (tn_message t) (tn_history t)) as Hnd.
  pose proof (try_agent_failure_tools (tn_message t) (tn_history t)) as Hf.
  pose proof (occurrences_NoDup tool _ Hnd) as Hocc.
  destruct (success (try_agent agent (tn_message t) (tn_history t)));
    unfold requests_in, failures_in, len;
    cbn [flat_map tools_of trace_entries_of app length List.filter
         is_record_request is_failed_request is_check negb];
    rewrite ?app_nil_r.
  - repeat split; lia.
  - rewrite Hf by reflexivity. unfold occurrences, len. simpl.
    repeat split; lia.
Qed.

(** What a sequence of turns contributes; [ok] counts the turns that
    succeed. *)
Lemma turns_contribution (turns : list turn) (tool : pystr) :
  let calls := calls_of_turns agent turns in
  let ok := Z.of_nat (length (List.filter (turn_succeeds agent) turns)) in
  requests_in calls = len turns
  /\ failures_in calls = len turns - ok
  /\ 0 <= occurrences tool (flat_map tools_of calls) <= ok
  /\ Z.of_nat (length (flat_map trace_entries_of calls)) = ok
  /\ Z.of_nat (length (List.filter is_check calls)) = ok.
Proof.
  induction turns as [|t turns (IHr & IHf & IHo & IHt & IHc)].
  - cbv. repeat split; congruence.
  - unfold calls_of_turns in *. cbn [flat_map List.filter] in *.
    destruct (counts_app (turn_calls agent t)
                (flat_map (turn_calls agent) turns)) as (-> & ->).
    rewrite !flat_map_app, occurrences_app, List.filter_app, !length_app.
    destruct (turn_contribution t tool) as (Hr & Hf & Ho & Ht & Hc).
    rewrite Hr, Hf, Ht, Hc, IHr, IHf.
    unfold len in *. cbn [length].
    destruct (turn_succeeds agent t); cbn [length]; repeat split; lia.
Qed.

Lemma run_checks_length (calls : list call) :
  Z.of_nat (length (consistency_checks (run calls)))
  = Z.min 30 (Z.of_nat (length (List.filter is_check calls))).
Proof.
  induction calls as [|c calls IH] using rev_ind; [reflexivity|].
  rewrite run_snoc, step_consistency_checks, List.filter_app, length_app.
  destruct c as [| | |now q r]; cbn [List.filter is_check length];
    rewrite ?trim_length, ?length_app; cbn [length]; lia.
Qed.

(** X7. When the metrics are fed by [invoke_agent_with_metrics] only, the
    counter of a tool never exceeds the number of successful requests: an
    invocation passes each tool name at most once, and none when it
    fails. *)
Theorem tool_counter_at_most_successes (turns : list turn) (tool : pystr) :
  0 <= default 0 (tool_calls (after_turns agent turns) !! tool)
    <= successful_requests (after_turns agent turns).
Proof.
  rewrite after_turns_run, run_tool_calls, fold_bump_lookup, lookup_empty.
  destruct (run_counters (calls_of_turns agent turns)) as (_ & _ & ->).
  destruct (turns_contribution turns tool) as (Hr & Hf & Ho & _).
  cbv zeta in Hr, Hf, Ho. rewrite Hr, Hf. simpl. lia.
Qed.

(** X8. After a sequence of invocations on a fresh [AgentMetrics], with
    [ok] of them successful: [total_requests] is the number of
    invocations, [successful_requests] is [ok] and [failed_requests] the
    rest; [execution_traces] holds [min(50, ok)] traces and
    [consistency_checks] [min(30, ok)] checks, a failed invocation
    recording neither; and [errors] holds one record per failed
    invocation. *)
Theorem invocations_recorded (turns : list turn) :
  let m := after_turns agent turns in
  let ok := Z.of_nat (length (List.filter (turn_succeeds agent) turns)) in
  total_requests m = len turns
  /\ successful_requests m = ok
  /\ failed_requests m = len turns - ok
  /\ len (execution_traces m) = Z.min 50 ok
  /\ len (consistency_checks m) = Z.min 30 ok
  /\ len (errors m) = len turns - ok.
Proof.
  cbv zeta. rewrite after_turns_run.
  destruct (run_counters (calls_of_turns agent turns)) as (-> & -> & ->).
  destruct (turns_contribution turns []) as (Hr & Hf & _ & Ht & Hc).
  cbv zeta in Hr, Hf, Ht, Hc.
  destruct (run_windows (calls_of_turns agent turns))
    as (_ & _ & _ & Htr & _).
  unfold len at 3 4 5.
  rewrite run_checks_length, Hc, Htr, slice_last_length.
  pose proof (run_errors_length (calls_of_turns agent turns)) as He.
  unfold len at 1 in He. rewrite He, Hr, Hf.
  repeat split; lia.
Qed.

End Turns.

End AgentFacts.

(** ** Anonymized addresses in the security log *)

Module AnonymizeFacts.
Import Py Security PyFacts.

(** *** [split] and [join] *)

Lemma split_on_aux_nonempty (sep : N) (cur s : pystr) :
  split_on_aux sep cur s <> [].
Proof.
  revert cur. induction s as [|c s IH]; intros cur; simpl; [discriminate|].
  destruct (c =? sep)%N; [discriminate | apply IH].
Qed.

Lemma join_cons (sep p : pystr) (ps : list pystr) :
  ps <> [] -> join sep (p :: ps) = p ++ sep ++ join sep ps.
Proof. destruct ps; [congruence | reflexivity]. Qed.

(** Joining the fields of a split gives the text back. *)
Lemma join_split_on_aux (sep : N) (cur s : pystr) :
  join [sep] (split_on_aux sep cur s) = rev cur ++ s.
Proof.
  revert cur. induction s as [|c s IH]; intros cur; simpl.
  - rewrite app_nil_r. reflexivity.
  - destruct (N.eqb_spec c sep) as [->|Hne].
    + rewrite join_cons by apply split_on_aux_nonempty.
      rewrite IH. reflexivity.
    + rewrite IH. simpl. rewrite <- app_assoc. reflexivity.
Qed.

Lemma join_split_on (sep : N) (s : pystr) :
  join [sep] (split_on sep s) = s.
Proof. apply join_split_on_aux. Qed.

Lemma split_on_aux_field (sep : N) (p cur rest : pystr) :
  sep ∉ p ->
  split_on_aux sep cur (p ++ rest) = split_on_aux sep (rev p ++ cur) rest.
Proof.
  revert cur. induction p as [|c p IH]; intros cur Hp; [reflexivity|].
  apply not_elem_of_cons in Hp as (Hc & Hp). simpl.
  destruct (N.eqb_spec c sep) as [->|_]; [congruence|].
  rewrite IH by exact Hp. rewrite <- app_assoc. reflexivity.
Qed.

(** Splitting a join of fields that do not hold the separator gives the
    fields back. *)
Lemma split_on_join (sep : N) (fields : list pystr) :
  fields <> [] -> Forall (fun f => sep ∉ f) fields ->
  split_on sep (join [sep] fields) = fields.
Proof.
  intros Hne Hall. unfold split_on.
  induction Hall as [|f fields Hf Hall IH]; [congruence|].
  destruct fields as [|g fields].
  - simpl. rewrite <- (app_nil_r f) at 1.
    rewrite split_on_aux_field by exact Hf. simpl.
    rewrite app_nil_r, rev_involutive. reflexivity.
  - rewrite join_cons by discriminate.
    rewrite split_on_aux_field by exact Hf.
    cbn [app split_on_aux]. rewrite N.eqb_refl, app_nil_r, rev_involutive.
    f_equal. apply IH. discriminate.
Qed.

Lemma elem_of_join (sep : pystr) (fields : list pystr) (c : N) :
  c ∈ join sep fields ->
  c ∈ sep \/ exists f, f ∈ fields /\ c ∈ f.
Proof.
  induction fields as [|f fields IH]; simpl.
  - intros Hin. inversion Hin.
  - destruct fields as [|g fields].
    + intros Hin. right. exists f. split; [apply list_elem_of_here|exact Hin].
    + rewrite !elem_of_app. intros [Hin|[Hin|Hin]].
      * right. exists f. split; [apply list_elem_of_here|exact Hin].
      * left. exact Hin.
      * destruct (IH Hin) as [?|(h & Hh & Hc)]; [left; assumption|].
        right. exists h. split; [apply list_elem_of_further, Hh|exact Hc].
Qed.

Lemma join_take_all (sep : pystr) (k : nat) (fields : list pystr) :
  (length fields <= k)%nat -> join sep (take k fields) = join sep fields.
Proof. intros Hle. rewrite take_ge by exact Hle. reflexivity. Qed.

(** X9. For an address made of fields joined by dots, no field holding a
    dot or a colon, [_anonymize_ip] returns the first two fields joined by
    a dot, followed by [".***"]: later fields never reach the log, two
    addresses with the same first two fields are logged alike, and an
    address of at most two fields is logged whole. *)
Theorem anonymize_dotted (fields fields' : list pystr)
    (Hne : fields <> [])
    (Hclean : Forall (fun f => (46%N ∉ f) /\ (58%N ∉ f)) fields)
    (Hne' : fields' <> [])
    (Hclean' : Forall (fun f => (46%N ∉ f) /\ (58%N ∉ f)) fields') :
  anonymize_ip (join (lit ".") fields)
  = join (lit ".") (take 2 fields) ++ lit ".***"
  /\ (take 2 fields = take 2 fields' ->
      anonymize_ip (join (lit ".") fields)
      = anonymize_ip (join (lit ".") fields'))
  /\ ((length fields <= 2)%nat ->
      anonymize_ip (join (lit ".") fields)
      = join (lit ".") fields ++ lit ".***").
Proof.
  assert (forall fs, fs <> [] ->
            Forall (fun f => (46%N ∉ f) /\ (58%N ∉ f)) fs ->
            anonymize_ip (join (lit ".") fs)
            = join (lit ".") (take 2 fs) ++ lit ".***") as Hform.
  { intros fs Hfs Hcl. unfold anonymize_ip.
    rewrite bool_decide_eq_false_2.
    - change (lit ".") with [46%N]. rewrite split_on_join; [reflexivity|exact Hfs|].
      eapply Forall_impl; [exact Hcl|]. simpl. tauto.
    - intros Hin. apply elem_of_join in Hin as [Hin|(f & Hf & Hin)].
      + apply list_elem_of_singleton in Hin. discriminate.
      + rewrite Forall_forall in Hcl. destruct (Hcl f Hf). contradiction. }
  split; [|split].
  - apply Hform; assumption.
  - intros Heq. rewrite !Hform by assumption. rewrite Heq. reflexivity.
  - intros Hlen. rewrite Hform by assumption.
    unfold slice_to. rewrite take_ge by exact Hlen. reflexivity.
Qed.

Lemma anonymize_dotted_witness :
  anonymize_ip (lit "192.168.10.77") = lit "192.168.***"
  /\ anonymize_ip (lit "192.168.10.77") = anonymize_ip (lit "192.168.3.4").
Proof.
  assert (forall fs : list pystr,
            fs = [lit "192"; lit "168"; lit "10"; lit "77"]
            \/ fs = [lit "192"; lit "168"; lit "3"; lit "4"] ->
            fs <> []
            /\ Forall (fun f => (46%N ∉ f) /\ (58%N ∉ f)) fs) as Hok.
  { intros fs [-> | ->]; (split; [discriminate|]);
      repeat constructor; intros Hin;
      repeat (apply elem_of_cons in Hin as [Hin|Hin]; [discriminate|]);
      inversion Hin. }
  destruct (Hok _ (or_introl eq_refl)) as (Hne & Hcl).
  destruct (Hok _ (or_intror eq_refl)) as (Hne' & Hcl').
  destruct (anonymize_dotted _ _ Hne Hcl Hne' Hcl') as (Hform & Hsame & _).
  split; [exact Hform | exact (Hsame eq_refl)].
Defined.

Lemma join_has_separator (sep : N) (f g : pystr) (fields : list pystr) :
  sep ∈ join [sep] (f :: g :: fields).
Proof.
  rewrite join_cons by discriminate.
  rewrite elem_of_app. right. apply list_elem_of_here.
Qed.

(** X10. For an address made of two or more groups joined by colons, no
    group holding a colon, [_anonymize_ip] returns the first four groups
    joined by colons, followed by [":****"]: two addresses with the same
    first four groups are logged alike, and an address of at most four
    groups (such as ["::1"], three groups) is logged whole. *)
Theorem anonymize_colons (f g : pystr) (groups : list pystr)
    (f' g' : pystr) (groups' : list pystr)
    (Hclean : Forall (fun x => 58%N ∉ x) (f :: g :: groups))
    (Hclean' : Forall (fun x => 58%N ∉ x) (f' :: g' :: groups')) :
  anonymize_ip (join (lit ":") (f :: g :: groups))
  = join (lit ":") (take 4 (f :: g :: groups)) ++ lit ":****"
  /\ (take 4 (f :: g :: groups) = take 4 (f' :: g' :: groups') ->
      anonymize_ip (join (lit ":") (f :: g :: groups))
      = anonymize_ip (join (lit ":") (f' :: g' :: groups')))
  /\ ((length groups <= 2)%nat ->
      anonymize_ip (join (lit ":") (f :: g :: groups))
      = join (lit ":") (f :: g :: groups) ++ lit ":****").
Proof.
  assert (forall a b gs,
            Forall (fun x => 58%N ∉ x) (a :: b :: gs) ->
            anonymize_ip (join (lit ":") (a :: b :: gs))
            = join (lit ":") (take 4 (a :: b :: gs)) ++ lit ":****")
    as Hform.
  { intros a b gs Hcl. unfold anonymize_ip. change (lit ":") with [58%N].
    rewrite bool_decide_eq_true_2 by apply join_has_separator.
    rewrite split_on_join; [reflexivity|discriminate|exact Hcl]. }
  split; [|split].
  - apply Hform. exact Hclean.
  - intros Heq. rewrite !Hform by assumption. rewrite Heq. reflexivity.
  - intros Hlen. rewrite Hform by assumption.
    rewrite take_ge by (simpl; lia). reflexivity.
Qed.

Lemma anonymize_colons_witness :
  anonymize_ip (lit "::1") = lit "::1:****".
Proof.
  assert (Forall (fun x : pystr => 58%N ∉ x) [[]; []; lit "1"]) as Hcl.
  { repeat constructor; intros Hin;
      repeat (apply elem_of_cons in Hin as [Hin|Hin]; [discriminate|]);
      inversion Hin. }
  destruct (anonymize_colons [] [] [lit "1"] [] [] [lit "1"] Hcl Hcl)
    as (_ & _ & Hshort).
  apply Hshort. simpl. lia.
Defined.

End AnonymizeFacts.

(** ** The rate limiter over sequences of requests *)

Module LimiterFacts.
Import Py Security Spec Logs PyFacts SecurityFacts.

Lemma serve_length (reqs : list request) (sm : SecurityManager) :
  length (fst (serve sm reqs)) = length reqs.
Proof.
  revert sm. induction reqs as [|r reqs IH]; intros sm; [reflexivity|].
  rewrite serve_cons. simpl. rewrite IH. reflexivity.
Qed.

Lemma serve_snoc (sm : SecurityManager) (reqs : list request) (r : request) :
  let sm1 := snd (serve sm reqs) in
  let one := check_default sm1 (rq_ip r) (rq_now r) (rq_log_now r) in
  fst (serve sm (reqs ++ [r])) = fst (serve sm reqs) ++ [fst one]
  /\ snd (serve sm (reqs ++ [r])) = snd one.
Proof.
  cbv zeta. rewrite serve_app, serve_cons. cbn [fst snd serve].
  split; reflexivity.
Qed.

(** The outcome of a call is decided by the timestamps newer than the
    window. *)
Lemma check_default_cases (sm : SecurityManager) (ip : pystr) (now : Z)
    (log_now : pystr) :
  let recent := recent_at now (stored_for sm ip) in
  (20 <= len recent
   /\ fst (check_default sm ip now log_now) = (false, 0)
   /\ stored_for (snd (check_default sm ip now log_now)) ip = recent)
  \/ (len recent < 20
      /\ fst (check_default sm ip now log_now)
         = (true, 20 - len (recent ++ [now]) - 1)
      /\ stored_for (snd (check_default sm ip now log_now)) ip
         = recent ++ [now]).
Proof.
  cbv zeta.
  destruct (Z.le_gt_cases 20 (len (recent_at now (stored_for sm ip))))
    as [Hfull|Hroom].
  - left. split; [exact Hfull|].
    apply check_default_rejected. exact Hfull.
  - right. split; [lia|]. apply check_default_allowed. lia.
Qed.

(** *** The audit log *)

Lemma check_default_log (sm : SecurityManager) (ip : pystr) (now : Z)
    (log_now : pystr) :
  security_log (snd (check_default sm ip now log_now))
  = if fst (fst (check_default sm ip now log_now)) then security_log sm
    else
      let log := security_log sm
                 ++ [{| ev_timestamp := log_now;
                        ev_type := lit "rate_limit_exceeded";
                        ev_details := exceeded_details 20 60;
                        ev_ip := anonymize_ip ip |}] in
      if 1000 <? len log then slice_last 1000 log else log.
Proof.
  unfold check_default, check_rate_limit.
  destruct (20 <=? _); reflexivity.
Qed.

(** The log is the last 1000 of the events of the rejected requests. *)
Lemma serve_log (reqs : list request) :
  security_log (snd (serve new_manager reqs))
  = slice_last 1000 (rejection_events reqs (fst (serve new_manager reqs))).
Proof.
  induction reqs as [|r reqs IH] using rev_ind; [reflexivity|].
  destruct (serve_snoc new_manager reqs r) as (Hres & Hsm).
  cbv zeta in Hres, Hsm. rewrite Hres, Hsm, check_default_log, IH.
  unfold rejection_events.
  rewrite zip_with_app by (symmetry; apply serve_length).
  rewrite flat_map_app. cbn [zip_with flat_map fst snd].
  rewrite app_nil_r.
  destruct (fst (fst (check_default _ _ _ _))).
  - rewrite app_nil_r. reflexivity.
  - cbv zeta.
    change (if 1000 <? len ?l then slice_last 1000 ?l else ?l)
      with (Observability.trim 1000 l).
    rewrite ObservabilityFacts.trim_slice_last.
    apply LogFacts.slice_last_app_slice.
Qed.

(** X11. After every sequence of calls with the defaults on a fresh
    manager, [security_log] is the last 1000 of the events of the rejected
    calls, in the order of the calls: one event per rejected call, the
    oldest dropped beyond 1000, each with the type
    ["rate_limit_exceeded"], the limit and the window in its details, the
    anonymized address and the clock reading of its request.  An allowed
    call logs nothing. *)
Theorem rejections_logged (reqs : list request) :
  let results := fst (serve new_manager reqs) in
  let log := security_log (snd (serve new_manager reqs)) in
  log = slice_last 1000 (rejection_events reqs results)
  /\ length log = Nat.min 1000 (rejections results)
  /\ Forall (fun ev =>
               ev_type ev = lit "rate_limit_exceeded"
               /\ exists r, r ∈ reqs
                            /\ ev_ip ev = anonymize_ip (rq_ip r)
                            /\ ev_timestamp ev = rq_log_now r)
       log.
Proof.
  cbv zeta. split; [apply serve_log|].
  induction reqs as [|r reqs (IHlen & IHall)] using rev_ind.
  - split; [reflexivity | constructor].
  - destruct (serve_snoc new_manager reqs r) as (Hres & Hsm).
    cbv zeta in Hres, Hsm. rewrite Hres, Hsm, check_default_log.
    unfold rejections in *. rewrite filter_app, length_app.
    assert (Forall (fun ev =>
                      ev_type ev = lit "rate_limit_exceeded"
                      /\ exists r0, r0 ∈ reqs ++ [r]
                                    /\ ev_ip ev = anonymize_ip (rq_ip r0)
                                    /\ ev_timestamp ev = rq_log_now r0)
              (security_log (snd (serve new_manager reqs)))) as Hold.
    { eapply Forall_impl; [exact IHall|]. simpl.
      intros ev (Hty & r0 & Hin & Hip & Hts). split; [exact Hty|].
      exists r0. rewrite elem_of_app. tauto. }
    destruct (fst (check_default _ _ _ _)) as [[|] remaining] eqn:Hone;
      cbn [fst].
    + rewrite filter_cons_False by (simpl; congruence).
      rewrite filter_nil. cbn [length].
      split; [lia | exact Hold].
    + rewrite filter_cons_True by reflexivity.
      rewrite filter_nil. cbn [length].
      change (if 1000 <? len ?l then slice_last 1000 ?l else ?l)
        with (Observability.trim 1000 l).
      split.
      * rewrite ObservabilityFacts.trim_length, length_app. cbn [length].
        lia.
      * apply LogFacts.Forall_trim_snoc; [exact Hold|].
        split; [reflexivity|]. exists r.
        rewrite elem_of_app, list_elem_of_singleton. tauto.
Qed.

(** *** Clients do not interfere *)

Lemma check_default_same_stored (sm1 sm2 : SecurityManager) (ip : pystr)
    (now : Z) (log1 log2 : pystr) :
  stored_for sm1 ip = stored_for sm2 ip ->
  fst (check_default sm1 ip now log1) = fst (check_default sm2 ip now log2)
  /\ stored_for (snd (check_default sm1 ip now log1)) ip
     = stored_for (snd (check_default sm2 ip now log2)) ip.
Proof.
  intros Heq.
  destruct (check_default_cases sm1 ip now log1) as [(H1 & -> & ->)|(H1 & -> & ->)];
    destruct (check_default_cases sm2 ip now log2) as [(H2 & -> & ->)|(H2 & -> & ->)];
    rewrite Heq in *; try lia; split; reflexivity.
Qed.

Lemma serve_isolated (ip : pystr) (reqs : list request) :
  forall sm1 sm2,
    stored_for sm1 ip = stored_for sm2 ip ->
    results_for ip reqs (fst (serve sm1 reqs))
    = fst (serve sm2 (requests_from ip reqs))
    /\ stored_for (snd (serve sm1 reqs)) ip
       = stored_for (snd (serve sm2 (requests_from ip reqs))) ip.
Proof.
  unfold results_for, requests_from.
  induction reqs as [|r reqs IH]; intros sm1 sm2 Heq.
  - split; [reflexivity | exact Heq].
  - rewrite serve_cons. cbn [fst snd zip zip_with].
    rewrite !filter_cons. cbn [fst].
    destruct (decide (rq_ip r = ip)) as [Hip|Hother].
    + rewrite serve_cons. cbn [fst snd fmap list_fmap].
      rewrite Hip.
      destruct (check_default_same_stored sm1 sm2 ip (rq_now r)
                  (rq_log_now r) (rq_log_now r) Heq) as (Hres & Hst).
      destruct (IH _ _ Hst) as (IHres & IHst).
      rewrite Hres. split; [f_equal; exact IHres | exact IHst].
    + apply IH. rewrite check_default_other by congruence. exact Heq.
Qed.

(** X12. The results that a client gets, and the timestamps stored for it
    in the end, are those it would get if the requests of the other clients
    had never been made. *)
Theorem clients_isolated (ip : pystr) (reqs : list request) :
  results_for ip reqs (fst (serve new_manager reqs))
  = fst (serve new_manager (requests_from ip reqs))
  /\ stored_for (snd (serve new_manager reqs)) ip
     = stored_for (snd (serve new_manager (requests_from ip reqs))) ip.
Proof. apply serve_isolated. reflexivity. Qed.

(** *** The window slides *)

Lemma recent_at_app (now : Z) (l k : list Z) :
  recent_at now (l ++ k) = recent_at now l ++ recent_at now k.
Proof. apply filter_app. Qed.

Lemma recent_at_later (t now : Z) (l : list Z) :
  t <= now -> recent_at now (recent_at t l) = recent_at now l.
Proof.
  intros Hle. unfold recent_at. induction l as [|x l IH]; [reflexivity|].
  rewrite !filter_cons.
  destruct (decide (t - timedelta_seconds 60 < x)) as [Hx|Hx].
  - rewrite filter_cons, IH. reflexivity.
  - rewrite IH. destruct (decide (now - timedelta_seconds 60 < x)); [lia|].
    reflexivity.
Qed.

Lemma admitted_snoc (ip : pystr) (reqs : list request)
    (results : list (bool * Z)) (r : request) (res : bool * Z) :
  length results = length reqs ->
  admitted ip (reqs ++ [r]) (results ++ [res])
  = admitted ip reqs results
    ++ (if decide (rq_ip r = ip /\ fst res = true) then [rq_now r] else []).
Proof.
  intros Hlen. unfold admitted.
  rewrite zip_with_app by (symmetry; exact Hlen).
  rewrite filter_app, fmap_app. f_equal.
  cbn [zip_with]. rewrite filter_cons, filter_nil. cbn [fst snd].
  destruct (decide (rq_ip r = ip /\ fst res = true)); reflexivity.
Qed.

Lemma clock_monotone_snoc (reqs : list request) (r : request) :
  clock_monotone (reqs ++ [r]) ->
  clock_monotone reqs /\ forall r', r' ∈ reqs -> rq_now r' <= rq_now r.
Proof.
  intros Hmono. split.
  - intros i j ri rj Hij Hi Hj. apply (Hmono i j ri rj Hij).
    + apply lookup_app_l_Some. exact Hi.
    + apply lookup_app_l_Some. exact Hj.
  - intros r' Hin. apply list_elem_of_lookup in Hin as [i Hi].
    apply (Hmono i (length reqs) r' r).
    + apply lookup_lt_Some in Hi. lia.
    + apply lookup_app_l_Some. exact Hi.
    + rewrite lookup_app_r by lia. rewrite Nat.sub_diag. reflexivity.
Qed.

(** With a clock that never goes back, what a later call can still see of
    the stored timestamps is what it would see of all the allowed requests:
    the purges have only removed what no later call counts. *)
Lemma stored_agrees_with_admitted (ip : pystr) (reqs : list request) :
  clock_monotone reqs ->
  forall now,
    (forall r, r ∈ reqs -> rq_now r <= now) ->
    recent_at now (stored_for (snd (serve new_manager reqs)) ip)
    = recent_at now (admitted ip reqs (fst (serve new_manager reqs))).
Proof.
  induction reqs as [|r reqs IH] using rev_ind; intros Hmono now Hnow.
  - reflexivity.
  - apply clock_monotone_snoc in Hmono as (Hmono & Hbefore).
    specialize (IH Hmono).
    destruct (serve_snoc new_manager reqs r) as (Hres & Hsm).
    cbv zeta in Hres, Hsm. rewrite Hres, Hsm.
    rewrite admitted_snoc by apply serve_length.
    assert (rq_now r <= now) as Hr.
    { apply Hnow. rewrite elem_of_app, list_elem_of_singleton. tauto. }
    assert (forall r', r' ∈ reqs -> rq_now r' <= now) as Hnow'.
    { intros r' Hin. apply Hnow. rewrite elem_of_app. tauto. }
    destruct (decide (rq_ip r = ip)) as [Hip|Hother].
    + pose proof (IH (rq_now r) Hbefore) as IHr. rewrite <- Hip in *.
      destruct (check_default_cases (snd (serve new_manager reqs))
                  (rq_ip r) (rq_now r) (rq_log_now r))
        as [(_ & -> & ->)|(_ & -> & ->)]; cbn [fst].
      * rewrite decide_False by (intros [_ ?]; discriminate).
        rewrite app_nil_r, IHr. apply recent_at_later. exact Hr.
      * rewrite decide_True by (split; reflexivity).
        rewrite !recent_at_app, IHr, recent_at_later by exact Hr.
        reflexivity.
    + rewrite check_default_other by congruence.
      rewrite decide_False by (intros [? _]; contradiction).
      rewrite app_nil_r. apply IH. exact Hnow'.
Qed.

(** X13. When the clock never goes back along the requests, at every
    request the allowed requests of its client so far, this one included,
    whose clock reading is less than 60 seconds old number at most 20. *)
Theorem at_most_20_per_window (reqs : list request) (r : request)
    (Hmono : clock_monotone (reqs ++ [r])) :
  (length (recent_at (rq_now r)
             (admitted (rq_ip r) (reqs ++ [r])
                (fst (serve new_manager (reqs ++ [r])))))
   <= 20)%nat.
Proof.
  rewrite <- (stored_agrees_with_admitted (rq_ip r) (reqs ++ [r]) Hmono).
  - etransitivity; [apply recent_at_length|].
    apply serve_bounded. intros c. unfold stored_for, new_manager. simpl.
    rewrite lookup_empty. simpl. lia.
  - intros r' Hin. apply elem_of_app in Hin as [Hin|Hin].
    + apply clock_monotone_snoc in Hmono as (_ & Hbefore).
      apply Hbefore, Hin.
    + apply list_elem_of_singleton in Hin. subst. lia.
Qed.

Lemma at_most_20_per_window_witness :
  let r0 := {| rq_ip := lit "10.0.0.1"; rq_now := 0; rq_log_now := [] |} in
  let r1 := {| rq_ip := lit "10.0.0.1"; rq_now := 5; rq_log_now := [] |} in
  (length (recent_at 5
             (admitted (lit "10.0.0.1") [r0; r1]
                (fst (serve new_manager [r0; r1]))))
   <= 20)%nat.
Proof.
  intros r0 r1. apply (at_most_20_per_window [r0] r1).
  intros i j ri rj Hij Hi Hj.
  destruct i as [|[|i]], j as [|[|j]]; simpl in Hi, Hj;
    try discriminate; try lia;
    injection Hi as <-; injection Hj as <-; simpl; lia.
Defined.

(** *** One call, any limit and window *)

Lemma stored_for_insert (storage : gmap pystr (list Z))
    (log : list security_event) (ip : pystr) (l : list Z) :
  stored_for {| rate_limit_storage := <[ip := l]> storage;
                security_log := log |} ip = l.
Proof.
  unfold stored_for. cbn [rate_limit_storage].
  rewrite lookup_insert_eq. reflexivity.
Qed.

(** X14. After a call of [check_rate_limit] with a positive window,
    whatever the limit and whether the call is allowed, every timestamp
    stored for the client is newer than [now] minus the window, and each
    was stored before or is [now] itself. *)
Theorem nothing_stale_stored (now : Z) (log_now : pystr)
    (sm : SecurityManager) (ip : pystr) (max_requests window_seconds : Z)
    (Hwindow : 0 < window_seconds) :
  let sm' := snd (check_rate_limit now log_now sm ip max_requests
                    window_seconds) in
  Forall (fun ts => now - timedelta_seconds window_seconds < ts)
    (stored_for sm' ip)
  /\ forall ts, ts ∈ stored_for sm' ip -> ts ∈ stored_for sm ip \/ ts = now.
Proof.
  cbv zeta. unfold check_rate_limit. fold (stored_for sm ip).
  set (recent := filter _ (stored_for sm ip)).
  assert (Forall (fun ts => now - timedelta_seconds window_seconds < ts)
            recent) as Hrecent.
  { apply Forall_forall. intros ts Hin.
    apply list_elem_of_filter in Hin. tauto. }
  assert (forall ts, ts ∈ recent -> ts ∈ stored_for sm ip) as Hsub.
  { intros ts Hin. apply list_elem_of_filter in Hin. tauto. }
  destruct (max_requests <=? len recent); cbn [snd].
  - rewrite stored_for_log, stored_for_insert.
    split; [exact Hrecent | auto].
  - cbn [rate_limit_storage security_log].
    rewrite insert_insert_eq, stored_for_insert. split.
    + apply Forall_app. split; [exact Hrecent|].
      constructor; [|constructor]. unfold timedelta_seconds. lia.
    + intros ts Hin. apply elem_of_app in Hin as [Hin|Hin]; [auto|].
      apply list_elem_of_singleton in Hin. auto.
Qed.

Lemma nothing_stale_stored_witness :
  Forall (fun ts => 100000000 - timedelta_seconds 60 < ts)
    (stored_for (snd (check_rate_limit 100000000 [] new_manager
                        (lit "10.0.0.1") 20 60)) (lit "10.0.0.1")).
Proof.
  apply (nothing_stale_stored 100000000 [] new_manager (lit "10.0.0.1")
           20 60).
  lia.
Defined.

End LimiterFacts.

(** ** API keys and anonymized records *)

Module SecurityDataFacts.
Import Py SecurityData PyFacts.

(** X15. When the value of [GROZY_API_KEY] and the generated token hold no
    surrogate code point, the manager is built and accepts its own master
    key: a missing or empty variable is replaced by a generated key, which
    starts with ["grozy_"], a non-empty variable is the master key, and the
    master key is never empty.  A missing or empty provided key is refused
    without being hashed. *)
Theorem master_key_accepted (sha256_hex : pystr -> pystr)
    (env_key : option pystr) (token : pystr)
    (Henv : encodable (default [] env_key) = true)
    (Htoken : encodable token = true) :
  exists ks,
    new_key_store sha256_hex env_key token = Some ks
    /\ master_key ks
       = match env_key with
         | Some (c :: k) => c :: k
         | _ => lit "grozy_" ++ token
         end
    /\ master_key ks <> []
    /\ validate_api_key sha256_hex ks (Some (master_key ks)) = Some true
    /\ validate_api_key sha256_hex ks None = Some false
    /\ validate_api_key sha256_hex ks (Some []) = Some false.
Proof.
  set (master := match env_key with
                 | Some (c :: k) => c :: k
                 | _ => lit "grozy_" ++ token
                 end).
  assert (Hmaster : encodable master = true).
  { assert (encodable (lit "grozy_" ++ token) = true) as Hgen.
    { unfold encodable. rewrite forallb_app. apply andb_true_intro.
      split; [vm_compute; reflexivity | exact Htoken]. }
    destruct env_key as [[|c k]|]; [exact Hgen | exact Henv | exact Hgen]. }
  assert (Hne : exists c k, master = c :: k).
  { destruct env_key as [[|c k]|]; subst master; cbn; eauto. }
  destruct Hne as (c & k & Hck).
  exists {| master_key := master; master_key_hash := sha256_hex master |}.
  split.
  { change (new_key_store sha256_hex env_key token)
      with (match hash_key sha256_hex master with
            | Some h => Some {| master_key := master; master_key_hash := h |}
            | None => None
            end).
    unfold hash_key. rewrite Hmaster. reflexivity. }
  split; [reflexivity|].
  cbn [master_key master_key_hash].
  split; [rewrite Hck; discriminate|].
  split; [|split; reflexivity].
  rewrite Hck. cbn [validate_api_key]. rewrite <- Hck.
  unfold hash_key. rewrite Hmaster. f_equal.
  apply bool_decide_eq_true_2. reflexivity.
Qed.

(** With no [GROZY_API_KEY] and the token ["abc"]; the hash function is of
    no account. *)
Lemma master_key_accepted_witness :
  exists ks,
    new_key_store (fun key => key) None (lit "abc") = Some ks
    /\ master_key ks = lit "grozy_abc"
    /\ master_key ks <> []
    /\ validate_api_key (fun key => key) ks (Some (master_key ks))
       = Some true
    /\ validate_api_key (fun key => key) ks None = Some false
    /\ validate_api_key (fun key => key) ks (Some []) = Some false.
Proof.
  apply (master_key_accepted (fun key => key) None (lit "abc"));
    vm_compute; reflexivity.
Defined.

(** *** anonymize_data *)

Lemma mask_length (s : pystr) : (length (mask s) <= 7)%nat.
Proof.
  unfold mask. destruct (4 <? len s); [|vm_compute; lia].
  rewrite length_app, slice_last_length.
  change (length (lit "***")) with 3%nat. lia.
Qed.

Lemma mask_mask (s : pystr) : mask (mask s) = mask s.
Proof.
  destruct (Z.ltb_spec 4 (len s)) as [Hlong|Hshort].
  - assert (Hm : mask s = lit "***" ++ slice_last 4 s).
    { unfold mask. apply Z.ltb_lt in Hlong. rewrite Hlong. reflexivity. }
    rewrite Hm. unfold mask, len. unfold len in Hlong.
    rewrite length_app, slice_last_length.
    change (length (lit "***")) with 3%nat.
    replace (4 <? Z.of_nat (3 + Nat.min 4 (length s))) with true
      by (symmetry; apply Z.ltb_lt; lia).
    f_equal. unfold slice_last at 1.
    rewrite length_app, slice_last_length.
    change (length (lit "***")) with 3%nat.
    replace (3 + Nat.min 4 (length s) - 4)%nat with 3%nat by lia.
    apply (drop_app_length (lit "***")).
  - assert (Hm : mask s = lit "****").
    { unfold mask. apply Z.ltb_ge in Hshort. rewrite Hshort. reflexivity. }
    rewrite Hm. reflexivity.
Qed.

(** What the loop leaves under a key, for any list of distinct fields. *)
Lemma fold_anonymize_lookup (fields : list pystr) :
  NoDup fields ->
  forall (data : gmap pystr pyval) (k : pystr),
    fold_left anonymize_field fields data !! k
    = if decide (k ∈ fields)
      then (fun v => VStr (mask (str_of_val v))) <$> data !! k
      else data !! k.
Proof.
  induction 1 as [|f fields Hf Hnd IH]; intros data k; cbn [fold_left].
  - destruct (decide (k ∈ [])) as [Hin|_]; [|reflexivity].
    exfalso. exact (not_elem_of_nil k Hin).
  - rewrite IH. unfold anonymize_field.
    destruct (decide (k = f)) as [->|Hne].
    + rewrite decide_False by exact Hf.
      rewrite decide_True by apply list_elem_of_here.
      destruct (data !! f) as [v|] eqn:Hv.
      * rewrite lookup_insert_eq. reflexivity.
      * rewrite Hv. reflexivity.
    + assert ((match data !! f with
               | Some v => <[f := VStr (mask (str_of_val v))]> data
               | None => data
               end) !! k = data !! k) as ->.
      { destruct (data !! f); [|reflexivity].
        apply lookup_insert_ne. congruence. }
      destruct (decide (k ∈ fields)) as [Hin|Hout].
      * rewrite decide_True by (apply list_elem_of_further, Hin).
        reflexivity.
      * rewrite decide_False; [reflexivity|].
        rewrite elem_of_cons. tauto.
Qed.

Lemma sensitive_fields_distinct : NoDup sensitive_fields.
Proof.
  unfold sensitive_fields.
  repeat (constructor;
          [intros Hin;
           repeat (apply elem_of_cons in Hin as [Hin|Hin]; [discriminate|]);
           inversion Hin|]).
  constructor.
Qed.

Lemma anonymize_data_lookup (data : gmap pystr pyval) (k : pystr) :
  anonymize_data data !! k
  = if decide (k ∈ sensitive_fields)
    then (fun v => VStr (mask (str_of_val v))) <$> data !! k
    else data !! k.
Proof. apply fold_anonymize_lookup, sensitive_fields_distinct. Qed.

(** X16. [anonymize_data] keeps the keys of the record and the values of
    every key other than [user_id], [email], [ip_address] and [phone];
    under those four it leaves a string of at most 7 characters, which is
    either ["****"] or ["***"] followed by the last four characters of the
    printed value; and anonymizing an anonymized record changes nothing. *)
Theorem anonymize_data_masks (data : gmap pystr pyval) (k : pystr)
    (s : pystr) :
  anonymize_data data !! k
  = (if decide (k ∈ sensitive_fields)
     then (fun v => VStr (mask (str_of_val v))) <$> data !! k
     else data !! k)
  /\ dom (anonymize_data data) = dom data
  /\ (length (mask s) <= 7)%nat
  /\ (mask s = lit "****" \/ mask s = lit "***" ++ slice_last 4 s)
  /\ anonymize_data (anonymize_data data) = anonymize_data data.
Proof.
  split; [apply anonymize_data_lookup|]. split; [|split; [|split]].
  - apply set_eq. intros x. rewrite !elem_of_dom, anonymize_data_lookup.
    destruct (decide (x ∈ sensitive_fields)); [|reflexivity].
    rewrite fmap_is_Some. reflexivity.
  - apply mask_length.
  - unfold mask. destruct (4 <? len s); auto.
  - apply map_eq. intros x. rewrite !anonymize_data_lookup.
    destruct (decide (x ∈ sensitive_fields)); [|reflexivity].
    destruct (data !! x) as [v|]; [|reflexivity].
    cbn [fmap option_fmap option_map str_of_val]. rewrite mask_mask.
    reflexivity.
Qed.

End SecurityDataFacts.

(** ** The rates of the summary *)

Module SummaryFacts.
Import Py Observability Spec PyFacts ObservabilityFacts.

Lemma truediv_zero (n : Z) : 0 < n -> truediv 0 n = zero.
Proof. intros Hn. destruct n as [|p|p]; try lia. reflexivity. Qed.

Section Rates.
Context {builtins : Builtins}.

(** X17. Once a request has been recorded: when no recorded request failed
    the summary gives a [success_rate] of exactly 100.0 and an
    [error_rate] of 0.0, and when every one failed it gives 0.0 and
    100.0, whatever the number of requests. *)
Theorem rates_at_extremes (calls : list call) (now : pystr)
    (Hsome : 0 < requests_in calls) :
  let s := get_summary now (run calls) in
  (failures_in calls = 0 ->
   Summary.success_rate s = 100%float /\ Summary.error_rate s = 0%float)
  /\ (failures_in calls = requests_in calls ->
      Summary.success_rate s = 0%float /\ Summary.error_rate s = 100%float).
Proof.
  destruct (run_counters calls) as (Ht & Hf & Hs).
  unfold get_summary, build_summary, compute_locals.
  cbn [Summary.success_rate Summary.error_rate loc_success_rate
       loc_error_rate].
  rewrite Ht, Hf, Hs.
  replace (0 <? requests_in calls) with true
    by (symmetry; apply Z.ltb_lt; exact Hsome).
  split; intros Hfail; rewrite Hfail.
  - rewrite Z.sub_0_r, truediv_self, truediv_zero by exact Hsome.
    split; vm_compute; reflexivity.
  - rewrite Z.sub_diag, truediv_self, truediv_zero by exact Hsome.
    split; vm_compute; reflexivity.
Qed.

End Rates.

(** One successful request. *)
Lemma rates_at_extremes_witness :
  let s := get_summary (builtins := ascii_builtins) []
             (run (builtins := ascii_builtins) [quick_call]) in
  Summary.success_rate s = 100%float /\ Summary.error_rate s = 0%float.
Proof.
  apply (rates_at_extremes (builtins := ascii_builtins) [quick_call] []);
    vm_compute; reflexivity.
Defined.

End SummaryFacts.
